(** * scripts/translate_docs.py: the documentation copier

    A shallow embedding of the script and of the part of Python's runtime
    it relies on: [str.replace], text-mode file input and output, the
    [pathlib] operations [/], [exists] and [mkdir], and [print].

    The file system is a finite map from paths to nodes, and a file holds
    bytes.  Every call that reaches the operating system is recorded in a
    trace, and a Python exception ends the run with the world left as it
    was when it was raised. *)

From Stdlib Require Import Ascii String NArith.
From stdpp Require Import gmap strings list fin_maps.

Local Open Scope string_scope.

(** ** Text *)

Module Text.

Definition LF : ascii := "010"%char.
Definition CR : ascii := "013"%char.

(** ["\n"] *)
Definition nl : string := String LF EmptyString.

(** [s[k:]] for [k <= len(s)]. *)
Fixpoint drop_str (k : nat) (s : string) : string :=
  match k, s with
  | S k', String _ s' => drop_str k' s'
  | _, _ => s
  end.

(** The scan of [str.replace] for a non-empty [old]: occurrences are
    found left to right and do not overlap.  [skip] counts the
    characters of the occurrence just replaced that are still ahead. *)
Fixpoint replace_scan (old new : string) (skip : nat) (s : string) : string :=
  match s with
  | EmptyString => EmptyString
  | String c s' =>
      match skip with
      | S k => replace_scan old new k s'
      | O =>
          if String.prefix old s
          then new +:+ replace_scan old new (String.length old - 1) s'
          else String c (replace_scan old new 0 s')
      end
  end.

(** With an empty [old], [str.replace] puts [new] before every character
    and at the end. *)
Fixpoint interleave (new s : string) : string :=
  match s with
  | EmptyString => new
  | String c s' => new +:+ String c (interleave new s')
  end.

(** [s.replace(old, new)] *)
Definition replace (s old new : string) : string :=
  match old with
  | EmptyString => interleave new s
  | String _ _ => replace_scan old new 0 s
  end.

(** What [f.read()] returns for a file opened in text mode with the
    default [newline=None]: universal newlines, every ["\r\n"] and every
    other ["\r"] of the file comes back as ["\n"]. *)
Fixpoint universal_newlines (s : string) : string :=
  match s with
  | EmptyString => EmptyString
  | String c s' =>
      if Ascii.eqb c CR then
        match s' with
        | String c' s'' =>
            if Ascii.eqb c' LF
            then String LF (universal_newlines s'')
            else String LF (universal_newlines s')
        | EmptyString => String LF EmptyString
        end
      else String c (universal_newlines s')
  end.

(** *** The [utf-8] codec

    A text is kept as its UTF-8 encoding, so decoding a file is checking
    that its bytes are well-formed and handing them on.  The bytes of
    [CR], [LF] and of the ASCII strings the script looks for never lie
    inside a multi-byte sequence, so concatenation, universal newlines
    and [replace] of a non-empty ASCII string act on the encoding as
    they do on the code points. *)

Definition byte (c : ascii) : N := N_of_ascii c.

Definition between (lo hi : N) (c : ascii) : bool :=
  ((lo <=? byte c) && (byte c <=? hi))%N.

(** A continuation byte, [80..BF]. *)
Definition continuation (c : ascii) : bool := between 128 191 c.

(** The second byte of a three-byte sequence: [A0..BF] after [E0] (no
    overlong form), [80..9F] after [ED] (no surrogate), [80..BF]
    otherwise. *)
Definition second_of_three (b0 b1 : ascii) : bool :=
  if (byte b0 =? 224)%N then between 160 191 b1
  else if (byte b0 =? 237)%N then between 128 159 b1
  else continuation b1.

(** The second byte of a four-byte sequence: [90..BF] after [F0] (no
    overlong form), [80..8F] after [F4] (nothing above U+10FFFF),
    [80..BF] otherwise. *)
Definition second_of_four (b0 b1 : ascii) : bool :=
  if (byte b0 =? 240)%N then between 144 191 b1
  else if (byte b0 =? 244)%N then between 128 143 b1
  else continuation b1.

(** The byte strings the strict [utf-8] decoder accepts; on any other it
    raises [UnicodeDecodeError]. *)
Fixpoint utf8_valid (s : string) : bool :=
  match s with
  | EmptyString => true
  | String b0 s1 =>
      if (byte b0 <=? 127)%N then utf8_valid s1
      else if between 194 223 b0 then
        match s1 with
        | String b1 s2 => continuation b1 && utf8_valid s2
        | _ => false
        end
      else if between 224 239 b0 then
        match s1 with
        | String b1 (String b2 s3) =>
            second_of_three b0 b1 && continuation b2 && utf8_valid s3
        | _ => false
        end
      else if between 240 244 b0 then
        match s1 with
        | String b1 (String b2 (String b3 s4)) =>
            second_of_four b0 b1 && continuation b2 && continuation b3
            && utf8_valid s4
        | _ => false
        end
      else false
  end.

(** [os.linesep] of a POSIX host. *)
Definition linesep : string := nl.

(** What [f.write(s)] stores for a file opened in text mode with the
    default [newline=None]: ["\n"] becomes [os.linesep], and nothing is
    translated when [os.linesep] is ["\n"]. *)
Definition write_newlines (s : string) : string :=
  if String.eqb linesep nl then s else replace s nl linesep.

(** No carriage return in [s]. *)
Fixpoint no_cr (s : string) : bool :=
  match s with
  | EmptyString => true
  | String c s' => negb (Ascii.eqb c CR) && no_cr s'
  end.

End Text.

(** ** The script: constants and the pure part *)

Definition MARKER_LINE : string :=
  "<!-- TRANSLATED TO ENGLISH (replace with real translation) -->".

Definition fake_translate (content : string) : string :=
  (MARKER_LINE +:+ Text.nl) +:+ content.

Definition FILES : list string :=
  [ "OVERVIEW.md";
    "QUICK_START.md";
    "FRONTEND_INTEGRATION.md";
    "INTERMEDIATE_GUIDE.md";
    "EXPERT_GUIDE.md";
    "MIGRATION_V1_V2.md";
    "IMPLEMENTATION_NOTES.md";
    "FAQ.md";
    "CONTRIBUTING.md" ].

(** The inner loop of [main]:
    [for f2 in FILES: if f2 != fname: translated = translated.replace(f"./{f2}", f"./{f2}")] *)
Definition adjust_links (fname : string) (translated : string) : string :=
  fold_left
    (fun translated f2 =>
       if decide (f2 <> fname)
       then Text.replace translated ("./" +:+ f2) ("./" +:+ f2)
       else translated)
    FILES translated.

(** ** The file system and the run-time *)

(** A path is the list of its components, as [pathlib] holds it. *)
Abbreviation path := (list string).

(** [p / name] for a one-component [name]. *)
Definition joinpath (p : path) (name : string) : path := p ++ [name].
Infix "</>" := joinpath (at level 40, left associativity).

(** [p.parent] *)
Definition parent (p : path) : path := removelast p.

Inductive node : Type :=
| File (content : string)
| Dir.

(** The calls that reach the operating system, in the order made. *)
Inductive event : Type :=
| Mkdir (p : path)
| Stat (p : path)
| OpenRead (p : path)
| OpenWrite (p : path)
| PrintLine (line : string).

Inductive exn : Type :=
| FileExistsError
| FileNotFoundError
| NotADirectoryError
| IsADirectoryError
| UnicodeDecodeError.

Record world : Type := World {
  fs : gmap path node;
  trace : list event
}.

Inductive outcome (A : Type) : Type :=
| Done (a : A)
| Raised (e : exn).
Arguments Done {A} a.
Arguments Raised {A} e.

(** A computation runs in a world and either finishes or raises; the
    world it leaves is kept in both cases. *)
Definition io (A : Type) : Type := world -> outcome A * world.

Definition ret {A} (a : A) : io A := fun w => (Done a, w).

Definition bind {A B} (m : io A) (k : A -> io B) : io B :=
  fun w =>
    match m w with
    | (Done a, w') => k a w'
    | (Raised e, w') => (Raised e, w')
    end.

Definition raise {A} (e : exn) : io A := fun w => (Raised e, w).

Notation "x <- m ;; k" := (bind m (fun x => k))
  (at level 100, m at next level, right associativity).
Notation "m ;; k" := (bind m (fun _ => k))
  (at level 100, right associativity).

Definition emit (ev : event) : io unit :=
  fun w => (Done tt, World (fs w) (trace w ++ [ev])).

Definition stat (p : path) : io (option node) :=
  fun w => (Done (fs w !! p), w).

Definition store (p : path) (n : node) : io unit :=
  fun w => (Done tt, World (<[p := n]> (fs w)) (trace w)).

(** [for x in l: body(x)] *)
Fixpoint for_each {A} (l : list A) (body : A -> io unit) : io unit :=
  match l with
  | [] => ret tt
  | x :: l' => body x ;; for_each l' body
  end.

(** [p.mkdir(exist_ok=True)]: [os.mkdir] fails when the parent is not a
    directory or when [p] exists, and [exist_ok] lets the second failure
    pass only when [p] is a directory. *)
Definition mkdir_exist_ok (p : path) : io unit :=
  emit (Mkdir p) ;;
  up <- stat (parent p) ;;
  match up with
  | None => raise FileNotFoundError
  | Some (File _) => raise NotADirectoryError
  | Some Dir =>
      here <- stat p ;;
      match here with
      | None => store p Dir
      | Some Dir => ret tt
      | Some (File _) => raise FileExistsError
      end
  end.

(** [p.exists()] *)
Definition path_exists (p : path) : io bool :=
  emit (Stat p) ;;
  here <- stat p ;;
  ret (match here with Some _ => true | None => false end).

(** [with open(p, encoding="utf-8") as f: return f.read()]: the bytes are
    decoded, which fails on bytes that are not UTF-8, and the line endings
    of the decoded text are translated. *)
Definition read_text (p : path) : io string :=
  emit (OpenRead p) ;;
  here <- stat p ;;
  match here with
  | Some (File content) =>
      if Text.utf8_valid content
      then ret (Text.universal_newlines content)
      else raise UnicodeDecodeError
  | Some Dir => raise IsADirectoryError
  | None => raise FileNotFoundError
  end.

(** [with open(p, "w", encoding="utf-8") as f: f.write(s)] *)
Definition write_text (p : path) (s : string) : io unit :=
  emit (OpenWrite p) ;;
  up <- stat (parent p) ;;
  match up with
  | None => raise FileNotFoundError
  | Some (File _) => raise NotADirectoryError
  | Some Dir =>
      here <- stat p ;;
      match here with
      | Some Dir => raise IsADirectoryError
      | _ => store p (File (Text.write_newlines s))
      end
  end.

(** [print(line)] *)
Definition print (line : string) : io unit := emit (PrintLine line).

(** ** The script: [main] *)

Section Script.

(** [Path(__file__).parent] *)
Variable script_parent : path.

Definition SRC_DIR : path := script_parent </> ".." </> "docs".
Definition DST_DIR : path := SRC_DIR </> "en".

Definition translated_notice (fname : string) : string :=
  "Translated " +:+ fname +:+ " -> en/" +:+ fname.

Definition missing_notice (fname : string) : string :=
  "Source file missing: " +:+ fname.

(** The body of the loop of [main], for one [fname]. *)
Definition translate_one (fname : string) : io unit :=
  let src := SRC_DIR </> fname in
  let dst := DST_DIR </> fname in
  found <- path_exists src ;;
  if found then
    content <- read_text src ;;
    let translated := fake_translate content in
    let translated := adjust_links fname translated in
    write_text dst translated ;;
    print (translated_notice fname)
  else
    print (missing_notice fname).

Definition main : io unit :=
  mkdir_exist_ok DST_DIR ;;
  for_each FILES translate_one.

(** [main] with its loop cut after the names of [l]: what has been run
    when the iteration of the next name starts. *)
Definition main_upto (l : list string) : io unit :=
  mkdir_exist_ok DST_DIR ;;
  for_each l translate_one.

(** A process starts with nothing traced yet. *)
Definition boot (m : gmap path node) : world := World m [].

(** The lines printed, in order. *)
Fixpoint printed (t : list event) : list string :=
  match t with
  | [] => []
  | PrintLine line :: t' => line :: printed t'
  | _ :: t' => printed t'
  end.

(** *** What one iteration does, read off the file system

    One iteration looks at three entries only: the source path, the
    destination directory and the destination path. *)
Inductive action : Type :=
| Skip
| Copy (text : string)
| FailRead (e : exn)
| FailWrite (e : exn).

Definition plan (m : gmap path node) (fname : string) : action :=
  match m !! (SRC_DIR </> fname) with
  | None => Skip
  | Some Dir => FailRead IsADirectoryError
  | Some (File content) =>
      if Text.utf8_valid content then
        match m !! DST_DIR with
        | None => FailWrite FileNotFoundError
        | Some (File _) => FailWrite NotADirectoryError
        | Some Dir =>
            match m !! (DST_DIR </> fname) with
            | Some Dir => FailWrite IsADirectoryError
            | _ => Copy (fake_translate (Text.universal_newlines content))
            end
        end
      else FailRead UnicodeDecodeError
  end.

Definition action_events (fname : string) (a : action) : list event :=
  let src := SRC_DIR </> fname in
  let dst := DST_DIR </> fname in
  match a with
  | Skip => [Stat src; PrintLine (missing_notice fname)]
  | Copy _ => [Stat src; OpenRead src; OpenWrite dst; PrintLine (translated_notice fname)]
  | FailRead _ => [Stat src; OpenRead src]
  | FailWrite _ => [Stat src; OpenRead src; OpenWrite dst]
  end.

Definition action_outcome (a : action) : outcome unit :=
  match a with
  | Skip | Copy _ => Done tt
  | FailRead e | FailWrite e => Raised e
  end.

Definition action_fs (fname : string) (a : action) (m : gmap path node) : gmap path node :=
  match a with
  | Copy text => <[DST_DIR </> fname := File text]> m
  | _ => m
  end.

Definition apply_action (fname : string) (a : action) : io unit :=
  fun w =>
    (action_outcome a,
     World (action_fs fname a (fs w)) (trace w ++ action_events fname a)).

(** The loop over [l] when every iteration follows a fixed plan [pl]:
    how it ends, what it leaves on disk, and what it traces. *)
Fixpoint loop_outcome (pl : string -> action) (l : list string) : outcome unit :=
  match l with
  | [] => Done tt
  | f :: l' =>
      match action_outcome (pl f) with
      | Done _ => loop_outcome pl l'
      | Raised e => Raised e
      end
  end.

Fixpoint loop_fs (pl : string -> action) (l : list string) (m : gmap path node)
  : gmap path node :=
  match l with
  | [] => m
  | f :: l' =>
      match action_outcome (pl f) with
      | Done _ => loop_fs pl l' (action_fs f (pl f) m)
      | Raised _ => m
      end
  end.

Fixpoint loop_events (pl : string -> action) (l : list string) : list event :=
  match l with
  | [] => []
  | f :: l' =>
      action_events f (pl f) ++
      match action_outcome (pl f) with
      | Done _ => loop_events pl l'
      | Raised _ => []
      end
  end.

(** The file system that [mkdir] leaves when it succeeds. *)
Definition after_mkdir (m : gmap path node) : gmap path node :=
  match m !! DST_DIR with
  | None => <[DST_DIR := Dir]> m
  | Some _ => m
  end.

(** How [DST_DIR.mkdir(exist_ok=True)] ends. *)
Definition mkdir_outcome (m : gmap path node) : outcome unit :=
  match m !! SRC_DIR with
  | None => Raised FileNotFoundError
  | Some (File _) => Raised NotADirectoryError
  | Some Dir =>
      match m !! DST_DIR with
      | Some (File _) => Raised FileExistsError
      | _ => Done tt
      end
  end.

Definition mkdir_fs (m : gmap path node) : gmap path node :=
  match mkdir_outcome m with
  | Done _ => after_mkdir m
  | Raised _ => m
  end.

(** *** The states on which no call fails

    The source directory is a directory, [en] is not a regular file, no
    listed source path is a directory, every listed source file holds
    well-formed UTF-8, and no destination path of a present source is a
    directory. *)
Definition file_ready (m : gmap path node) (fname : string) : bool :=
  match m !! (SRC_DIR </> fname) with
  | None => true
  | Some Dir => false
  | Some (File content) =>
      Text.utf8_valid content
      && match m !! (DST_DIR </> fname) with
         | Some Dir => false
         | _ => true
         end
  end.

(** The exception the iteration of a name that is not ready fails with,
    once [mkdir] has made or found the directory: a source that does not
    decode, or a directory in the place of a file. *)
Definition failure_of (m : gmap path node) (fname : string) : exn :=
  match m !! (SRC_DIR </> fname) with
  | Some (File content) =>
      if Text.utf8_valid content then IsADirectoryError else UnicodeDecodeError
  | _ => IsADirectoryError
  end.

Definition no_io_error (m : gmap path node) : bool :=
  match m !! SRC_DIR with Some Dir => true | _ => false end
  && match m !! DST_DIR with Some (File _) => false | _ => true end
  && forallb (file_ready m) FILES.

(** The notice of one file, and the calls of its iteration, on a run
    without failure. *)
Definition notice_for (m : gmap path node) (fname : string) : string :=
  match m !! (SRC_DIR </> fname) with
  | Some _ => translated_notice fname
  | None => missing_notice fname
  end.

Definition file_events (m : gmap path node) (fname : string) : list event :=
  let src := SRC_DIR </> fname in
  let dst := DST_DIR </> fname in
  match m !! src with
  | Some _ => [Stat src; OpenRead src; OpenWrite dst; PrintLine (translated_notice fname)]
  | None => [Stat src; PrintLine (missing_notice fname)]
  end.

(** The paths a call may name: [mkdir] the destination directory, [stat]
    and reads a listed file of the source directory, writes a listed file
    of the destination directory. *)
Definition event_in_scope (ev : event) : Prop :=
  match ev with
  | Mkdir p => p = DST_DIR
  | Stat p | OpenRead p => exists f, In f FILES /\ p = SRC_DIR </> f
  | OpenWrite p => exists f, In f FILES /\ p = DST_DIR </> f
  | PrintLine _ => True
  end.

(** The paths [main] looks at. *)
Definition footprint : list path :=
  SRC_DIR :: DST_DIR ::
  flat_map (fun f => [SRC_DIR </> f; DST_DIR </> f]) FILES.

End Script.

(** ** Concrete file systems *)

Definition docs : path := ["scripts"; ".."; "docs"].

(** Only [FAQ.md], holding ["# FAQ\n"]. *)
Definition fs_faq : gmap path node :=
  <[ docs </> "FAQ.md" := File ("# FAQ" +:+ Text.nl) ]>
  (<[ docs := Dir ]> ∅).

(** Only [FAQ.md], with a Windows line ending: ["a\r\nb"]. *)
Definition crlf_text : string :=
  String "a" (String Text.CR (String Text.LF (String "b" EmptyString))).

Definition fs_crlf : gmap path node :=
  <[ docs </> "FAQ.md" := File crlf_text ]>
  (<[ docs := Dir ]> ∅).

(** [fs_faq] and a file [main] has no business with. *)
Definition fs_faq_notes : gmap path node :=
  <[ docs </> "NOTES.txt" := File "keep" ]> fs_faq.

(** [fs_faq] with a regular file where the destination directory should
    be. *)
Definition fs_en_file : gmap path node :=
  <[ docs </> "en" := File "not a directory" ]> fs_faq.

(** [fs_faq] with a directory named like the second listed file. *)
Definition fs_dir_source : gmap path node :=
  <[ docs </> "QUICK_START.md" := Dir ]>
  (<[ docs </> "OVERVIEW.md" := File "# Overview" ]> fs_faq).

(** A source directory with nothing in it. *)
Definition fs_empty_docs : gmap path node := <[ docs := Dir ]> ∅.

(** ["caf\xe9\n"]: Latin-1, not UTF-8. *)
Definition latin1_text : string :=
  "caf" +:+ String (ascii_of_N 233) Text.nl.

(** [fs_faq] with a first listed file that is not UTF-8. *)
Definition fs_latin1 : gmap path node :=
  <[ docs </> "OVERVIEW.md" := File latin1_text ]> fs_faq.

(** Where the script lies in these file systems. *)
Definition here : path := ["scripts"].

(** Every parent of a present path is a directory of the map, up to the
    source directory. *)
Definition tree_shaped (m : gmap path node) : bool :=
  forallb
    (fun entry =>
       bool_decide (fst entry = docs)
       || match m !! parent (fst entry) with Some Dir => true | _ => false end)
    (map_to_list m).

(** [s] ends with [suffix]. *)
Definition ends_with (s suffix : string) : bool :=
  String.eqb (Text.drop_str (String.length s - String.length suffix) s) suffix.

(** * Facts *)

(** ** Text *)

Module TextFacts.
Import Text.

Lemma append_cons c a b : String c a +:+ b = String c (a +:+ b).
Proof. reflexivity. Qed.

Lemma prefix_cons a old c s :
  String.prefix (String a old) (String c s) = true ->
  a = c /\ String.prefix old s = true.
Proof.
  simpl. destruct (ascii_dec a c) as [->|]; [auto | discriminate].
Qed.

(** A prefix can be cut off and put back. *)
Lemma prefix_split old : forall s,
  String.prefix old s = true -> s = old +:+ drop_str (String.length old) s.
Proof.
  induction old as [|a old IH]; intros s H.
  - destruct s; reflexivity.
  - destruct s as [|c s]; [discriminate|].
    apply prefix_cons in H as [-> H]. rewrite append_cons. simpl.
    f_equal. apply IH, H.
Qed.


(** Replacing the occurrences of a non-empty [old] by [old] itself gives
    back what the scan has ahead of it. *)
Lemma replace_scan_same a old : forall s k,
  replace_scan (String a old) (String a old) k s = drop_str k s.
Proof.
  induction s as [|c s IH]; intros k.
  - destruct k; reflexivity.
  - destruct k as [|k]; cbn [replace_scan drop_str]; [|apply IH].
    destruct (String.prefix (String a old) (String c s)) eqn:E.
    + apply prefix_cons in E as [-> E].
      cbn [String.length]. rewrite Nat.sub_succ, Nat.sub_0_r, IH, append_cons.
      f_equal. symmetry. apply prefix_split, E.
    + rewrite IH. reflexivity.
Qed.

Lemma interleave_empty s : interleave EmptyString s = s.
Proof. induction s as [|c s IH]; simpl; [|rewrite IH]; reflexivity. Qed.

(** [s.replace(old, old) == s] *)
Lemma replace_same s old : replace s old old = s.
Proof.
  destruct old as [|a old]; simpl.
  - apply interleave_empty.
  - apply (replace_scan_same a old s 0).
Qed.

Lemma write_newlines_id s : write_newlines s = s.
Proof. reflexivity. Qed.

Lemma universal_newlines_no_cr : forall s,
  no_cr s = true -> universal_newlines s = s.
Proof.
  induction s as [|c s IH]; [reflexivity|].
  cbn [no_cr universal_newlines]. intros H.
  apply andb_prop in H as [Hc Hs].
  destruct (Ascii.eqb c CR); [discriminate|].
  rewrite IH by exact Hs. reflexivity.
Qed.

(** The model on the cases that tell [str.replace] and text mode apart
    from simpler readings. *)
Example replace_does_not_overlap : replace "aaaa" "aa" "b" = "bb".
Proof. reflexivity. Qed.

Example replace_takes_leftmost : replace "aaa" "aa" "b" = "ba".
Proof. reflexivity. Qed.

Example replace_grows : replace "see ./FAQ.md" "./FAQ.md" "./en/FAQ.md" = "see ./en/FAQ.md".
Proof. reflexivity. Qed.

Example replace_empty_old : replace "ab" EmptyString "-" = "-a-b-".
Proof. reflexivity. Qed.

Example universal_newlines_mixed :
  universal_newlines
    (String "a" (String CR (String LF (String "b" (String CR (String "c" nl))))))
  = String "a" (String LF (String "b" (String LF (String "c" nl)))).
Proof. reflexivity. Qed.

(** What the strict decoder takes and what it refuses. *)
Example utf8_ascii : utf8_valid ("# FAQ" +:+ nl) = true.
Proof. reflexivity. Qed.

Example utf8_two_bytes :
  utf8_valid (String (ascii_of_N 195) (String (ascii_of_N 169) EmptyString)) = true.
Proof. reflexivity. Qed.

Example utf8_lone_latin1_byte :
  utf8_valid (String (ascii_of_N 233) EmptyString) = false.
Proof. reflexivity. Qed.

Example utf8_overlong :
  utf8_valid (String (ascii_of_N 192) (String (ascii_of_N 128) EmptyString)) = false.
Proof. reflexivity. Qed.

Example utf8_surrogate :
  utf8_valid (String (ascii_of_N 237) (String (ascii_of_N 160)
             (String (ascii_of_N 128) EmptyString))) = false.
Proof. reflexivity. Qed.

Example utf8_truncated :
  utf8_valid (String (ascii_of_N 226) (String (ascii_of_N 130) EmptyString)) = false.
Proof. reflexivity. Qed.

Example utf8_above_last_code_point :
  utf8_valid (String (ascii_of_N 244) (String (ascii_of_N 144)
             (String (ascii_of_N 128) (String (ascii_of_N 128) EmptyString)))) = false.
Proof. reflexivity. Qed.

End TextFacts.

Lemma adjust_links_id fname s : adjust_links fname s = s.
Proof.
  unfold adjust_links. generalize FILES. intros l. revert s.
  induction l as [|f2 l IH]; intros s; [reflexivity|].
  cbn [fold_left]. destruct (decide (f2 <> fname)).
  - rewrite TextFacts.replace_same. apply IH.
  - apply IH.
Qed.


(** ** Paths *)

Lemma parent_joinpath (p : path) name : parent (p </> name) = p.
Proof. apply removelast_last. Qed.

Lemma joinpath_inj (p q : path) a b : p </> a = q </> b -> p = q /\ a = b.
Proof. apply app_inj_tail. Qed.

Lemma joinpath_length (p : path) name : length (p </> name) = S (length p).
Proof. unfold joinpath. rewrite length_app. simpl. lia. Qed.

Lemma joinpath_neq_self (p : path) a : p <> p </> a.
Proof. intros E. apply (f_equal length) in E. rewrite joinpath_length in E. lia. Qed.

Lemma joinpath2_neq (p : path) a b c : p </> a <> p </> b </> c.
Proof.
  intros E. apply (f_equal length) in E. rewrite !joinpath_length in E. lia.
Qed.

Lemma joinpath2_neq_self (p : path) b c : p <> p </> b </> c.
Proof.
  intros E. apply (f_equal length) in E. rewrite !joinpath_length in E. lia.
Qed.

Lemma en_not_listed : ~ In "en" FILES.
Proof. simpl. intuition discriminate. Qed.

Section ScriptFacts.

Variable sd : path.

Local Abbreviation SRC := (SRC_DIR sd).
Local Abbreviation DST := (DST_DIR sd).

Lemma src_neq_dst f g : SRC </> f <> DST </> g.
Proof. apply joinpath2_neq. Qed.

Lemma dstdir_neq_dst g : DST <> DST </> g.
Proof. apply joinpath_neq_self. Qed.

Lemma srcdir_neq_dstdir : SRC <> DST.
Proof. apply joinpath_neq_self. Qed.

Lemma srcdir_neq_dst g : SRC <> DST </> g.
Proof. apply joinpath2_neq_self. Qed.

Lemma src_listed_neq_dstdir f : In f FILES -> SRC </> f <> DST.
Proof.
  intros Hf E. apply joinpath_inj in E as [_ ->]. exact (en_not_listed Hf).
Qed.

Lemma dst_inj f g : DST </> f = DST </> g -> f = g.
Proof. intros E. apply joinpath_inj in E. tauto. Qed.

(** ** One iteration *)

Lemma world_eta w : World (fs w) (trace w) = w.
Proof. destruct w; reflexivity. Qed.

(** An iteration does what the plan read off the current file system
    says. *)
Lemma translate_one_plan fname w :
  translate_one sd fname w = apply_action sd fname (plan sd (fs w) fname) w.
Proof.
  destruct w as [m t].
  unfold translate_one, path_exists, read_text, write_text, print.
  unfold apply_action, plan, bind, emit, stat, store, ret, raise.
  cbn [fs trace]. rewrite parent_joinpath.
  destruct (m !! (SRC </> fname)) as [[c|]|] eqn:E1;
    [destruct (Text.utf8_valid c) eqn:Ev | |];
    destruct (m !! DST) as [[?|]|] eqn:E2;
    destruct (m !! (DST </> fname)) as [[?|]|] eqn:E3;
    repeat (cbn -[adjust_links Text.write_newlines fake_translate Text.utf8_valid];
            repeat match goal with
                   | H : _ = _ |- _ => progress rewrite H
                   end);
    rewrite ?adjust_links_id, ?TextFacts.write_newlines_id, <- ?app_assoc;
    reflexivity.
Qed.

(** No iteration changes what any iteration will do. *)
Lemma plan_action_fs m g f :
  plan sd (action_fs sd g (plan sd m g) m) f = plan sd m f.
Proof.
  destruct (plan sd m g) as [| text | |] eqn:Hg; try reflexivity.
  cbn [action_fs]. unfold plan in *.
  rewrite (lookup_insert_ne _ _ (SRC </> f)) by (apply not_eq_sym, src_neq_dst).
  rewrite (lookup_insert_ne _ _ DST) by (apply not_eq_sym, dstdir_neq_dst).
  destruct (decide (f = g)) as [->|Hne].
  - rewrite lookup_insert_eq.
    destruct (m !! (SRC </> g)) as [[c|]|]; try discriminate.
    destruct (Text.utf8_valid c); try discriminate.
    destruct (m !! DST) as [[?|]|]; try discriminate.
    destruct (m !! (DST </> g)) as [[?|]|]; congruence.
  - rewrite lookup_insert_ne; [reflexivity|].
    intros E. apply dst_inj in E. congruence.
Qed.

(** ** The loop and [main] in closed form *)

Lemma mkdir_run w :
  mkdir_exist_ok DST w =
  (mkdir_outcome sd (fs w), World (mkdir_fs sd (fs w)) (trace w ++ [Mkdir DST])).
Proof.
  destruct w as [m t].
  unfold mkdir_exist_ok, mkdir_outcome, mkdir_fs, mkdir_outcome, after_mkdir.
  unfold bind, emit, stat, store, ret, raise. cbn [fs trace].
  unfold DST_DIR at 1. rewrite parent_joinpath.
  destruct (m !! SRC) as [[?|]|] eqn:E1; destruct (m !! DST) as [[?|]|] eqn:E2;
    repeat (cbn; rewrite ?E1, ?E2); reflexivity.
Qed.

Lemma for_each_plan pl l : forall w,
  (forall f, plan sd (fs w) f = pl f) ->
  for_each l (translate_one sd) w =
  (loop_outcome pl l,
   World (loop_fs sd pl l (fs w)) (trace w ++ loop_events sd pl l)).
Proof.
  induction l as [|f l IH]; intros w Hpl.
  - cbn. rewrite app_nil_r, world_eta. reflexivity.
  - cbn [for_each loop_outcome loop_fs loop_events]. unfold bind.
    rewrite translate_one_plan, Hpl. unfold apply_action.
    destruct (action_outcome (pl f)) as [[]|e] eqn:Ho.
    + rewrite IH.
      * cbn [fs trace]. rewrite <- app_assoc. reflexivity.
      * intros g. cbn [fs]. rewrite <- (Hpl f), plan_action_fs. apply Hpl.
    + rewrite app_nil_r. destruct (pl f); try discriminate; reflexivity.
Qed.

Lemma main_run w :
  main sd w =
  match mkdir_outcome sd (fs w) with
  | Raised e => (Raised e, World (fs w) (trace w ++ [Mkdir DST]))
  | Done _ =>
      let m1 := after_mkdir sd (fs w) in
      (loop_outcome (plan sd m1) FILES,
       World (loop_fs sd (plan sd m1) FILES m1)
             (trace w ++ Mkdir DST :: loop_events sd (plan sd m1) FILES))
  end.
Proof.
  unfold main, bind. rewrite mkdir_run. unfold mkdir_fs.
  destruct (mkdir_outcome sd (fs w)) as [[]|e]; [|reflexivity].
  rewrite (for_each_plan (plan sd (after_mkdir sd (fs w)))) by reflexivity.
  cbn [fs trace]. rewrite <- app_assoc. reflexivity.
Qed.

(** ** What the loop leaves on disk *)

Lemma action_fs_other f a m p :
  p <> DST </> f -> action_fs sd f a m !! p = m !! p.
Proof.
  intros Hp. destruct a; try reflexivity.
  cbn [action_fs]. apply lookup_insert_ne. congruence.
Qed.

Lemma loop_fs_other pl p : forall l m,
  (forall f, In f l -> p <> DST </> f) ->
  loop_fs sd pl l m !! p = m !! p.
Proof.
  induction l as [|f l IH]; intros m Hp; [reflexivity|].
  cbn [loop_fs]. destruct (action_outcome (pl f)); [|reflexivity].
  rewrite IH by (intros g Hg; apply Hp; right; exact Hg).
  apply action_fs_other, Hp. left. reflexivity.
Qed.

(** A copy once on disk stays as it is. *)
Lemma loop_fs_keep pl f text : pl f = Copy text -> forall l m,
  m !! (DST </> f) = Some (File text) ->
  loop_fs sd pl l m !! (DST </> f) = Some (File text).
Proof.
  intros Hf. induction l as [|g l IH]; intros m Hm; [exact Hm|].
  cbn [loop_fs]. destruct (action_outcome (pl g)); [|exact Hm].
  apply IH. destruct (decide (g = f)) as [->|Hne].
  - rewrite Hf. cbn [action_fs]. apply lookup_insert_eq.
  - rewrite action_fs_other; [exact Hm|].
    intros E. apply dst_inj in E. congruence.
Qed.

Lemma loop_fs_written pl f text : pl f = Copy text -> forall l m,
  loop_outcome pl l = Done tt -> In f l ->
  loop_fs sd pl l m !! (DST </> f) = Some (File text).
Proof.
  intros Hf. induction l as [|g l IH]; intros m Hdone Hin; [destruct Hin|].
  cbn [loop_fs loop_outcome] in *.
  destruct (action_outcome (pl g)); [|discriminate].
  destruct (decide (g = f)) as [->|Hne].
  - apply loop_fs_keep; [exact Hf|].
    rewrite Hf. cbn [action_fs]. apply lookup_insert_eq.
  - apply IH; [exact Hdone|]. destruct Hin; [congruence|assumption].
Qed.

(** A name that is not copied leaves its destination alone. *)
Lemma loop_fs_not_copied pl f : (forall text, pl f <> Copy text) -> forall l m,
  loop_fs sd pl l m !! (DST </> f) = m !! (DST </> f).
Proof.
  intros Hf. induction l as [|g l IH]; intros m; [reflexivity|].
  cbn [loop_fs]. destruct (action_outcome (pl g)); [|reflexivity].
  rewrite IH. destruct (decide (g = f)) as [->|Hne].
  - destruct (pl f) eqn:E; try reflexivity. destruct (Hf _ eq_refl).
  - apply action_fs_other. intros E. apply dst_inj in E. congruence.
Qed.

Lemma action_fs_again pl f l m :
  action_fs sd f (pl f) (loop_fs sd pl l (action_fs sd f (pl f) m))
  = loop_fs sd pl l (action_fs sd f (pl f) m).
Proof.
  destruct (pl f) as [|text| |] eqn:Hf; try reflexivity.
  cbn [action_fs]. apply insert_id, loop_fs_keep; [exact Hf|].
  apply lookup_insert_eq.
Qed.

(** Running the loop on what it left changes nothing. *)
Lemma loop_fs_idem pl : forall l m,
  loop_fs sd pl l (loop_fs sd pl l m) = loop_fs sd pl l m.
Proof.
  induction l as [|f l IH]; intros m; [reflexivity|].
  cbn [loop_fs]. destruct (action_outcome (pl f)) eqn:Ho.
  - rewrite action_fs_again. apply IH.
  - reflexivity.
Qed.

Lemma loop_fs_ext pl1 pl2 : (forall f, pl1 f = pl2 f) -> forall l m,
  loop_fs sd pl1 l m = loop_fs sd pl2 l m.
Proof.
  intros E. induction l as [|f l IH]; intros m; [reflexivity|].
  cbn [loop_fs]. rewrite E, IH. reflexivity.
Qed.

Lemma loop_outcome_ext pl1 pl2 : (forall f, pl1 f = pl2 f) -> forall l,
  loop_outcome pl1 l = loop_outcome pl2 l.
Proof.
  intros E. induction l as [|f l IH]; [reflexivity|].
  cbn [loop_outcome]. rewrite E, IH. reflexivity.
Qed.

Lemma loop_events_ext pl1 pl2 : (forall f, pl1 f = pl2 f) -> forall l,
  loop_events sd pl1 l = loop_events sd pl2 l.
Proof.
  intros E. induction l as [|f l IH]; [reflexivity|].
  cbn [loop_events]. rewrite E, IH. reflexivity.
Qed.

(** The plan read off the disk is the same after the loop. *)
Lemma plan_loop_fs pl : forall l m,
  (forall f, plan sd m f = pl f) ->
  forall f, plan sd (loop_fs sd pl l m) f = pl f.
Proof.
  induction l as [|g l IH]; intros m Hpl f; [apply Hpl|].
  cbn [loop_fs]. destruct (action_outcome (pl g)); [|apply Hpl].
  apply IH. intros h. rewrite <- (Hpl g), plan_action_fs. apply Hpl.
Qed.

Lemma loop_outcome_done pl l :
  loop_outcome pl l = Done tt <->
  (forall f, In f l -> action_outcome (pl f) = Done tt).
Proof.
  induction l as [|g l IH]; cbn [loop_outcome].
  - split; [intros _ f []|reflexivity].
  - destruct (action_outcome (pl g)) as [[]|e] eqn:Ho.
    + rewrite IH. split.
      * intros H f [<-|Hf]; [exact Ho|apply H, Hf].
      * intros H f Hf. apply H. right. exact Hf.
    + split; [discriminate|]. intros H.
      rewrite <- Ho. apply H. left. reflexivity.
Qed.

(** ** [mkdir] *)

Lemma after_mkdir_other m p : p <> DST -> after_mkdir sd m !! p = m !! p.
Proof.
  intros Hp. unfold after_mkdir. destruct (m !! DST); [reflexivity|].
  apply lookup_insert_ne. congruence.
Qed.

Lemma after_mkdir_dir m :
  mkdir_outcome sd m = Done tt -> after_mkdir sd m !! DST = Some Dir.
Proof.
  unfold mkdir_outcome, after_mkdir.
  destruct (m !! SRC) as [[?|]|]; try discriminate.
  destruct (m !! DST) as [[?|]|] eqn:E; try discriminate; intros _.
  - exact E.
  - apply lookup_insert_eq.
Qed.

Lemma mkdir_fs_other m p : p <> DST -> mkdir_fs sd m !! p = m !! p.
Proof.
  intros Hp. unfold mkdir_fs. destruct (mkdir_outcome sd m); [|reflexivity].
  apply after_mkdir_other, Hp.
Qed.

(** Once the directory is there, [mkdir] finds it and leaves it. *)
Lemma mkdir_again m :
  m !! SRC = Some Dir -> m !! DST = Some Dir ->
  mkdir_outcome sd m = Done tt /\ after_mkdir sd m = m.
Proof.
  intros H1 H2. unfold mkdir_outcome, after_mkdir. rewrite H1, H2. auto.
Qed.

Lemma mkdir_done_src m : mkdir_outcome sd m = Done tt -> m !! SRC = Some Dir.
Proof.
  unfold mkdir_outcome. destruct (m !! SRC) as [[?|]|]; try discriminate.
  reflexivity.
Qed.

(** ** The plan of a listed file after [mkdir] *)

Lemma plan_missing m f :
  In f FILES -> m !! (SRC </> f) = None -> plan sd (after_mkdir sd m) f = Skip.
Proof.
  intros Hf Hm. unfold plan.
  rewrite after_mkdir_other by (apply src_listed_neq_dstdir, Hf).
  rewrite Hm. reflexivity.
Qed.

Lemma file_ready_file m f content :
  file_ready sd m f = true -> m !! (SRC </> f) = Some (File content) ->
  Text.utf8_valid content = true /\ m !! (DST </> f) <> Some Dir.
Proof.
  unfold file_ready. intros Hr Hsrc. rewrite Hsrc in Hr.
  apply andb_prop in Hr as [Hv Hd]. split; [exact Hv|].
  intros E. rewrite E in Hd. discriminate.
Qed.

Lemma plan_copy m f content :
  mkdir_outcome sd m = Done tt -> In f FILES ->
  m !! (SRC </> f) = Some (File content) ->
  file_ready sd m f = true ->
  plan sd (after_mkdir sd m) f
  = Copy (fake_translate (Text.universal_newlines content)).
Proof.
  intros Hmk Hf Hsrc Hr.
  destruct (file_ready_file m f content Hr Hsrc) as [Hv Hdst]. unfold plan.
  rewrite after_mkdir_other by (apply src_listed_neq_dstdir, Hf).
  rewrite Hsrc, Hv, (after_mkdir_dir _ Hmk).
  rewrite after_mkdir_other by (apply not_eq_sym, dstdir_neq_dst).
  destruct (m !! (DST </> f)) as [[?|]|]; congruence.
Qed.

Lemma plan_ready m f :
  mkdir_outcome sd m = Done tt -> In f FILES ->
  (action_outcome (plan sd (after_mkdir sd m) f) = Done tt
   <-> file_ready sd m f = true).
Proof.
  intros Hmk Hf. unfold plan, file_ready.
  rewrite after_mkdir_other by (apply src_listed_neq_dstdir, Hf).
  rewrite (after_mkdir_dir _ Hmk).
  rewrite after_mkdir_other by (apply not_eq_sym, dstdir_neq_dst).
  destruct (m !! (SRC </> f)) as [[c|]|]; cbn; try tauto.
  - destruct (Text.utf8_valid c); cbn; [|split; discriminate].
    destruct (m !! (DST </> f)) as [[?|]|]; cbn; try tauto.
    split; discriminate.
  - split; discriminate.
Qed.

Lemma no_io_error_spec m :
  no_io_error sd m = true <->
  mkdir_outcome sd m = Done tt /\
  (forall f, In f FILES -> file_ready sd m f = true).
Proof.
  unfold no_io_error, mkdir_outcome.
  rewrite !andb_true_iff, forallb_forall.
  destruct (m !! SRC) as [[?|]|]; destruct (m !! DST) as [[?|]|];
    intuition discriminate.
Qed.

(** [main] finishes exactly on the states described by [no_io_error]. *)
Lemma main_done_iff w :
  fst (main sd w) = Done tt <-> no_io_error sd (fs w) = true.
Proof.
  rewrite main_run, no_io_error_spec.
  destruct (mkdir_outcome sd (fs w)) as [[]|e] eqn:Hmk; cbn [fst].
  - rewrite loop_outcome_done. split.
    + intros H. split; [reflexivity|]. intros f Hf.
      apply (plan_ready _ _ Hmk Hf), H, Hf.
    + intros [_ H] f Hf. apply (plan_ready _ _ Hmk Hf), H, Hf.
  - split; [discriminate|]. intros [H _]. discriminate.
Qed.

(** ** What the loop traces *)

Lemma printed_app t1 t2 :
  printed (t1 ++ t2) = (printed t1 ++ printed t2)%list.
Proof.
  induction t1 as [|ev t1 IH]; [reflexivity|].
  destruct ev; cbn; rewrite ?IH; reflexivity.
Qed.

Lemma loop_events_ready pl ev : forall l,
  (forall f, In f l ->
     action_outcome (pl f) = Done tt /\ action_events sd f (pl f) = ev f) ->
  loop_events sd pl l = flat_map ev l.
Proof.
  induction l as [|f l IH]; intros H; [reflexivity|].
  cbn [loop_events flat_map].
  destruct (H f (or_introl eq_refl)) as [-> ->].
  rewrite IH; [reflexivity|]. intros g Hg. apply H. right. exact Hg.
Qed.

Lemma action_events_scope f a :
  In f FILES -> Forall (event_in_scope sd) (action_events sd f a).
Proof.
  intros Hf. destruct a; cbn [action_events];
    repeat (apply Forall_cons_2;
            [first [exact I | exists f; split; [exact Hf|reflexivity]]|]);
    apply Forall_nil_2.
Qed.

Lemma loop_events_scope pl : forall l,
  (forall f, In f l -> In f FILES) ->
  Forall (event_in_scope sd) (loop_events sd pl l).
Proof.
  induction l as [|f l IH]; intros Hl; [apply Forall_nil_2|].
  cbn [loop_events]. apply Forall_app. split.
  - apply action_events_scope, Hl. left. reflexivity.
  - destruct (action_outcome (pl f)); [|apply Forall_nil_2].
    apply IH. intros g Hg. apply Hl. right. exact Hg.
Qed.

(** The notices come out in the order of the list, also on a run that
    is cut short. *)
Lemma loop_printed_prefix pl notice : forall l,
  (forall f, In f l ->
     printed (action_events sd f (pl f))
     = match action_outcome (pl f) with Done _ => [notice f] | Raised _ => [] end) ->
  printed (loop_events sd pl l) `prefix_of` map notice l.
Proof.
  induction l as [|f l IH]; intros H; [reflexivity|].
  cbn [loop_events map]. rewrite printed_app, (H f (or_introl eq_refl)).
  destruct (action_outcome (pl f)).
  - cbn [app]. apply prefix_cons, IH. intros g Hg. apply H. right. exact Hg.
  - apply prefix_nil.
Qed.

Lemma plan_events m f :
  mkdir_outcome sd m = Done tt -> In f FILES -> file_ready sd m f = true ->
  action_events sd f (plan sd (after_mkdir sd m) f) = file_events sd m f.
Proof.
  intros Hmk Hf Hr. unfold file_events.
  destruct (m !! (SRC </> f)) as [[c|]|] eqn:Hsrc.
  - rewrite (plan_copy m f c Hmk Hf Hsrc Hr). reflexivity.
  - unfold file_ready in Hr. rewrite Hsrc in Hr. discriminate.
  - rewrite (plan_missing m f Hf Hsrc). reflexivity.
Qed.

Lemma plan_printed m f :
  In f FILES ->
  printed (action_events sd f (plan sd (after_mkdir sd m) f))
  = match action_outcome (plan sd (after_mkdir sd m) f) with
    | Done _ => [notice_for sd m f]
    | Raised _ => []
    end.
Proof.
  intros Hf. unfold plan, notice_for.
  rewrite after_mkdir_other by (apply src_listed_neq_dstdir, Hf).
  destruct (m !! (SRC </> f)) as [[c|]|]; try reflexivity.
  destruct (Text.utf8_valid c); try reflexivity.
  destruct (after_mkdir sd m !! DST) as [[?|]|]; try reflexivity.
  destruct (after_mkdir sd m !! (DST </> f)) as [[?|]|]; reflexivity.
Qed.

Lemma file_events_printed m f :
  printed (file_events sd m f) = [notice_for sd m f].
Proof.
  unfold file_events, notice_for. destruct (m !! (SRC </> f)); reflexivity.
Qed.

Lemma printed_flat_map m l :
  printed (flat_map (file_events sd m) l) = map (notice_for sd m) l.
Proof.
  induction l as [|g l IH]; [reflexivity|].
  cbn [flat_map map]. rewrite printed_app, file_events_printed, IH.
  reflexivity.
Qed.

(** ** A successful run *)

Lemma main_ok m :
  no_io_error sd m = true ->
  mkdir_outcome sd m = Done tt /\
  main sd (boot m) =
  (Done tt,
   World (loop_fs sd (plan sd (after_mkdir sd m)) FILES (after_mkdir sd m))
         (Mkdir DST :: loop_events sd (plan sd (after_mkdir sd m)) FILES)).
Proof.
  intros Hok. pose proof (proj2 (main_done_iff (boot m)) Hok) as Hdone.
  apply no_io_error_spec in Hok as [Hmk _]. split; [exact Hmk|].
  rewrite main_run in *. cbn [boot fs trace] in *. rewrite Hmk in *.
  cbn [fst] in Hdone. cbv zeta. rewrite Hdone. reflexivity.
Qed.

Lemma main_copies m f content :
  no_io_error sd m = true -> In f FILES ->
  m !! (SRC </> f) = Some (File content) ->
  fs (snd (main sd (boot m))) !! (DST </> f)
  = Some (File (fake_translate (Text.universal_newlines content))).
Proof.
  intros Hok Hf Hsrc. destruct (main_ok m Hok) as [Hmk Hrun].
  pose proof (proj2 (main_done_iff (boot m)) Hok) as Hdone.
  rewrite Hrun in *. cbn [snd fst fs] in *.
  apply no_io_error_spec in Hok as [_ Hready].
  apply loop_fs_written; [|apply loop_outcome_done| exact Hf].
  - apply plan_copy; try assumption. apply Hready, Hf.
  - intros g Hg. apply (plan_ready m g Hmk Hg), Hready, Hg.
Qed.

Lemma main_trace_ok m :
  no_io_error sd m = true ->
  trace (snd (main sd (boot m))) = Mkdir DST :: flat_map (file_events sd m) FILES.
Proof.
  intros Hok. destruct (main_ok m Hok) as [Hmk ->]. cbn [snd trace].
  apply no_io_error_spec in Hok as [_ Hready]. f_equal.
  apply loop_events_ready. intros f Hf. split.
  - apply (plan_ready m f Hmk Hf), Hready, Hf.
  - apply plan_events; auto.
Qed.

(** ** Runs from states that agree on the footprint *)

Lemma loop_outcome_ext_in pl1 pl2 : forall l,
  (forall f, In f l -> pl1 f = pl2 f) ->
  loop_outcome pl1 l = loop_outcome pl2 l.
Proof.
  induction l as [|f l IH]; intros E; [reflexivity|].
  cbn [loop_outcome]. rewrite (E f (or_introl eq_refl)), IH; [reflexivity|].
  intros g Hg. apply E. right. exact Hg.
Qed.

Lemma loop_events_ext_in pl1 pl2 : forall l,
  (forall f, In f l -> pl1 f = pl2 f) ->
  loop_events sd pl1 l = loop_events sd pl2 l.
Proof.
  induction l as [|f l IH]; intros E; [reflexivity|].
  cbn [loop_events]. rewrite (E f (or_introl eq_refl)), IH; [reflexivity|].
  intros g Hg. apply E. right. exact Hg.
Qed.

Lemma action_fs_agree (f : string) (a : action) (m1 m2 : gmap path node) (p : path) :
  m1 !! p = m2 !! p -> action_fs sd f a m1 !! p = action_fs sd f a m2 !! p.
Proof.
  intros E. destruct a; try exact E. cbn [action_fs].
  destruct (decide (DST </> f = p)) as [<-|Hne].
  - rewrite !lookup_insert_eq. reflexivity.
  - rewrite !lookup_insert_ne by exact Hne. exact E.
Qed.

Lemma loop_fs_agree pl1 pl2 (p : path) : forall l (m1 m2 : gmap path node),
  (forall f, In f l -> pl1 f = pl2 f) ->
  m1 !! p = m2 !! p ->
  loop_fs sd pl1 l m1 !! p = loop_fs sd pl2 l m2 !! p.
Proof.
  induction l as [|f l IH]; intros m1 m2 E Hp; [exact Hp|].
  cbn [loop_fs]. rewrite (E f (or_introl eq_refl)).
  destruct (action_outcome (pl2 f)); [|exact Hp].
  apply IH.
  - intros g Hg. apply E. right. exact Hg.
  - apply action_fs_agree, Hp.
Qed.

Lemma after_mkdir_dst m :
  after_mkdir sd m !! DST = Some (default Dir (m !! DST)).
Proof.
  unfold after_mkdir. destruct (m !! DST) eqn:E; [exact E|].
  apply lookup_insert_eq.
Qed.

Lemma after_mkdir_agree (m1 m2 : gmap path node) (p : path) :
  m1 !! DST = m2 !! DST -> m1 !! p = m2 !! p ->
  after_mkdir sd m1 !! p = after_mkdir sd m2 !! p.
Proof.
  intros Hd Hp. destruct (decide (p = DST)) as [->|Hne].
  - rewrite !after_mkdir_dst, Hd. reflexivity.
  - rewrite !after_mkdir_other by exact Hne. exact Hp.
Qed.

Lemma footprint_agree (m1 m2 : gmap path node) :
  Forall (fun p => m1 !! p = m2 !! p) (footprint sd) <->
  m1 !! SRC = m2 !! SRC /\ m1 !! DST = m2 !! DST /\
  (forall f, In f FILES ->
     m1 !! (SRC </> f) = m2 !! (SRC </> f) /\
     m1 !! (DST </> f) = m2 !! (DST </> f)).
Proof.
  unfold footprint. rewrite !Forall_cons, List.Forall_forall.
  split; intros (H1 & H2 & H); (split; [exact H1|split; [exact H2|]]).
  - intros f Hf. split; apply H, in_flat_map; exists f; cbn; auto.
  - intros p Hp. apply in_flat_map in Hp as (f & Hf & Hp).
    destruct (H f Hf) as [Ha Hb]. cbn in Hp. intuition (subst; assumption).
Qed.

Lemma plan_agree (m1 m2 : gmap path node) (f : string) :
  m1 !! (SRC </> f) = m2 !! (SRC </> f) ->
  m1 !! DST = m2 !! DST ->
  m1 !! (DST </> f) = m2 !! (DST </> f) ->
  plan sd m1 f = plan sd m2 f.
Proof. intros H1 H2 H3. unfold plan. rewrite H1, H2, H3. reflexivity. Qed.

(** ** The run up to a name *)

Lemma main_upto_all : main sd = main_upto sd FILES.
Proof. reflexivity. Qed.

Lemma main_upto_run l w :
  main_upto sd l w =
  match mkdir_outcome sd (fs w) with
  | Raised e => (Raised e, World (fs w) (trace w ++ [Mkdir DST]))
  | Done _ =>
      let m1 := after_mkdir sd (fs w) in
      (loop_outcome (plan sd m1) l,
       World (loop_fs sd (plan sd m1) l m1)
             (trace w ++ Mkdir DST :: loop_events sd (plan sd m1) l))
  end.
Proof.
  unfold main_upto, bind. rewrite mkdir_run. unfold mkdir_fs.
  destruct (mkdir_outcome sd (fs w)) as [[]|e]; [|reflexivity].
  rewrite (for_each_plan (plan sd (after_mkdir sd (fs w)))) by reflexivity.
  cbn [fs trace]. rewrite <- app_assoc. reflexivity.
Qed.

Lemma for_each_app_done {A} (body : A -> io unit) pre l : forall w w',
  for_each pre body w = (Done tt, w') ->
  for_each (pre ++ l) body w = for_each l body w'.
Proof.
  induction pre as [|x pre IH]; intros w w' H.
  - cbn in H. injection H as <-. reflexivity.
  - cbn [app for_each] in *. unfold bind in *.
    destruct (body x w) as [[[]|e] w1]; [|discriminate].
    apply IH, H.
Qed.

(** Cutting [main] before [f] and going on from there is [main]. *)
Lemma main_resumes pre f post w w1 w2 :
  FILES = (pre ++ f :: post)%list ->
  main_upto sd pre w = (Done tt, w1) ->
  translate_one sd f w1 = (Done tt, w2) ->
  main sd w = for_each post (translate_one sd) w2.
Proof.
  intros Hsplit Hpre Hf. unfold main. rewrite Hsplit.
  unfold main_upto, bind in *.
  destruct (mkdir_exist_ok DST w) as [[[]|e] w0]; [|discriminate].
  rewrite (for_each_app_done _ pre (f :: post) w0 w1 Hpre).
  cbn [for_each]. unfold bind. rewrite Hf. reflexivity.
Qed.

(** On a state on which no call fails, where [main] stands when the
    iteration of [f] starts, and what that iteration does. *)
Lemma main_upto_ok m pre f post :
  no_io_error sd m = true -> FILES = (pre ++ f :: post)%list ->
  fst (main_upto sd pre (boot m)) = Done tt /\
  trace (snd (main_upto sd pre (boot m)))
  = Mkdir DST :: flat_map (file_events sd m) pre /\
  (forall g c, In g pre -> m !! (SRC </> g) = Some (File c) ->
     fs (snd (main_upto sd pre (boot m))) !! (DST </> g)
     = Some (File ((MARKER_LINE +:+ Text.nl) +:+ Text.universal_newlines c))) /\
  (forall g, In g (f :: post) ->
     fs (snd (main_upto sd pre (boot m))) !! (DST </> g) = m !! (DST </> g)) /\
  translate_one sd f (snd (main_upto sd pre (boot m)))
  = (Done tt,
     World
       match m !! (SRC </> f) with
       | Some (File c) =>
           <[DST </> f :=
               File ((MARKER_LINE +:+ Text.nl) +:+ Text.universal_newlines c)]>
             (fs (snd (main_upto sd pre (boot m))))
       | _ => fs (snd (main_upto sd pre (boot m)))
       end
       (trace (snd (main_upto sd pre (boot m))) ++ file_events sd m f)).
Proof.
  intros Hok Hsplit. apply no_io_error_spec in Hok as [Hmk Hready].
  assert (Hin : forall g, In g (pre ++ f :: post) -> In g FILES)
    by (intros g Hg; rewrite Hsplit; exact Hg).
  assert (Hnodup : NoDup (pre ++ f :: post)).
  { rewrite <- Hsplit. apply (bool_decide_unpack _). reflexivity. }
  assert (Hpre : forall g, In g pre -> In g FILES)
    by (intros g Hg; apply Hin, in_or_app; left; exact Hg).
  assert (Hf : In f FILES) by (apply Hin, in_or_app; right; left; reflexivity).
  rewrite main_upto_run. cbn [boot fs trace app]. rewrite Hmk. cbv zeta.
  cbn [fst snd fs trace].
  set (m1 := after_mkdir sd m). set (pl := plan sd m1).
  assert (Hdone : forall g, In g FILES -> action_outcome (pl g) = Done tt).
  { intros g Hg. apply (plan_ready m g Hmk Hg), Hready, Hg. }
  split; [apply loop_outcome_done; auto|]. split; [|split; [|split]].
  - f_equal. apply loop_events_ready. intros g Hg. split; [auto|].
    apply plan_events; auto.
  - intros g c Hg Hsrc.
    apply (loop_fs_written pl g (fake_translate (Text.universal_newlines c)));
      [|apply loop_outcome_done; auto|exact Hg].
    apply plan_copy; auto.
  - intros g Hg. rewrite loop_fs_other.
    + apply after_mkdir_other, not_eq_sym, dstdir_neq_dst.
    + intros h Hh E. apply dst_inj in E. subst h.
      apply NoDup_app in Hnodup as (_ & Hdisj & _).
      apply (Hdisj g); apply list_elem_of_In; assumption.
  - rewrite translate_one_plan. cbn [fs].
    rewrite (plan_loop_fs pl pre m1 (fun g => eq_refl) f).
    unfold apply_action. cbn [fs trace].
    rewrite (Hdone f Hf).
    pose proof (plan_events m f Hmk Hf (Hready f Hf)) as Hev.
    fold m1 in Hev. fold pl in Hev. rewrite Hev. f_equal. f_equal.
    destruct (m !! (SRC </> f)) as [[c|]|] eqn:Hsrc.
    + unfold pl, m1. rewrite (plan_copy m f c Hmk Hf Hsrc (Hready f Hf)).
      reflexivity.
    + specialize (Hready f Hf). unfold file_ready in Hready.
      rewrite Hsrc in Hready. discriminate.
    + unfold pl, m1. rewrite (plan_missing m f Hf Hsrc). reflexivity.
Qed.

(** ** The claims *)


(** C2.  When the source directory holds [FAQ.md] with content
    ["# FAQ\n"], [main] returns and [en/FAQ.md] holds exactly the marker
    line followed by ["# FAQ\n"]. *)
Theorem main_faq_example m :
  no_io_error sd m = true ->
  m !! (SRC </> "FAQ.md") = Some (File ("# FAQ" +:+ Text.nl)) ->
  fst (main sd (boot m)) = Done tt /\
  fs (snd (main sd (boot m))) !! (DST </> "FAQ.md")
  = Some (File ("<!-- TRANSLATED TO ENGLISH (replace with real translation) -->"
                +:+ Text.nl +:+ "# FAQ" +:+ Text.nl)).
Proof.
  intros Hok Hsrc. split; [apply main_done_iff, Hok|].
  rewrite (main_copies m "FAQ.md" ("# FAQ" +:+ Text.nl) Hok);
    [reflexivity| |exact Hsrc].
  cbn. tauto.
Qed.

(** C3.  For a name of [FILES] whose source is absent: its iteration
    raises nothing, writes nothing and prints
    ["Source file missing: <name>"]; [main] leaves the destination
    [en/<name>] as it found it; and on a state on which no call fails
    [main] returns with that notice among the printed lines. *)
Theorem main_skips_missing_source m f :
  In f FILES -> m !! (SRC </> f) = None ->
  (forall w, fs w !! (SRC </> f) = None ->
     translate_one sd f w
     = (Done tt,
        World (fs w) (trace w ++ [Stat (SRC </> f); PrintLine (missing_notice f)])))
  /\ fs (snd (main sd (boot m))) !! (DST </> f) = m !! (DST </> f)
  /\ (no_io_error sd m = true ->
      fst (main sd (boot m)) = Done tt /\
      In (missing_notice f) (printed (trace (snd (main sd (boot m)))))).
Proof.
  intros Hf Hsrc. split; [|split].
  - intros w Hw. rewrite translate_one_plan. unfold plan. rewrite Hw.
    reflexivity.
  - rewrite main_run. cbn [boot fs trace].
    destruct (mkdir_outcome sd m); [|reflexivity]. cbn [snd fs].
    rewrite loop_fs_not_copied.
    + apply after_mkdir_other, not_eq_sym, dstdir_neq_dst.
    + intros text. rewrite (plan_missing m f Hf Hsrc). discriminate.
  - intros Hok. split; [apply main_done_iff, Hok|].
    rewrite (main_trace_ok m Hok). cbn [printed].
    rewrite printed_flat_map. apply in_map_iff. exists f. split; [|exact Hf].
    unfold notice_for. rewrite Hsrc. reflexivity.
Qed.

(** C4, as amended.  The link pass is a no-op: every [replace] of
    ["./<f2>"] by itself, and so the whole inner loop, gives back its
    input, for every text and every file name; hence the destination of a
    copied file holds exactly [fake_translate] of the text read from the
    source, which is the source content with every ["\r\n"] and every
    other ["\r"] turned into ["\n"], and is the source content itself
    when that holds no ["\r"]. *)
Theorem link_rewrite_is_noop :
  (forall s f2, Text.replace s ("./" +:+ f2) ("./" +:+ f2) = s) /\
  (forall fname s, adjust_links fname s = s) /\
  (forall m f content,
     no_io_error sd m = true -> In f FILES ->
     m !! (SRC </> f) = Some (File content) ->
     fs (snd (main sd (boot m))) !! (DST </> f)
     = Some (File (fake_translate (Text.universal_newlines content))) /\
     (Text.no_cr content = true ->
      fs (snd (main sd (boot m))) !! (DST </> f)
      = Some (File (fake_translate content)))).
Proof.
  split; [|split].
  - intros s f2. apply TextFacts.replace_same.
  - apply adjust_links_id.
  - intros m f content Hok Hf Hsrc.
    rewrite (main_copies m f content Hok Hf Hsrc). split; [reflexivity|].
    intros Hcr. rewrite (TextFacts.universal_newlines_no_cr _ Hcr). reflexivity.
Qed.

(** C5.  Running [main] again on the file system the first run left
    ends the same way and leaves every entry, so every destination
    [en/<name>], exactly as the first run left it: the marker line is not
    added a second time. *)
Theorem main_rerun_idempotent m :
  let first := main sd (boot m) in
  let second := main sd (boot (fs (snd first))) in
  fst second = fst first /\
  fs (snd second) = fs (snd first) /\
  (forall f, In f FILES ->
     fs (snd second) !! (DST </> f) = fs (snd first) !! (DST </> f)).
Proof.
  cbv zeta.
  assert (fst (main sd (boot (fs (snd (main sd (boot m)))))) = fst (main sd (boot m))
          /\ fs (snd (main sd (boot (fs (snd (main sd (boot m)))))))
             = fs (snd (main sd (boot m)))) as [H1 H2].
  2: { split; [exact H1|]. split; [exact H2|]. intros f _. rewrite H2. reflexivity. }
  rewrite (main_run (boot m)). cbn [boot fs trace].
  destruct (mkdir_outcome sd m) as [[]|e] eqn:Hmk; cbn [snd fst fs].
  - set (m1 := after_mkdir sd m). set (pl := plan sd m1).
    set (m2 := loop_fs sd pl FILES m1).
    assert (Hsrc : m2 !! SRC = Some Dir).
    { unfold m2. rewrite loop_fs_other by (intros; apply srcdir_neq_dst).
      unfold m1. rewrite after_mkdir_other by apply srcdir_neq_dstdir.
      apply mkdir_done_src, Hmk. }
    assert (Hdst : m2 !! DST = Some Dir).
    { unfold m2. rewrite loop_fs_other by (intros; apply dstdir_neq_dst).
      apply after_mkdir_dir, Hmk. }
    destruct (mkdir_again m2 Hsrc Hdst) as [Hmk2 Hfix].
    rewrite main_run. cbn [boot fs trace]. rewrite Hmk2, Hfix. cbn [fst snd fs].
    assert (Hpl : forall f, plan sd m2 f = pl f)
      by (apply plan_loop_fs; reflexivity).
    split.
    + apply loop_outcome_ext, Hpl.
    + rewrite (loop_fs_ext (plan sd m2) pl Hpl). apply loop_fs_idem.
  - rewrite main_run. cbn [boot fs trace]. rewrite Hmk. auto.
Qed.

(** C6, as amended.  On a host whose [os.linesep] is ["\n"] and a state
    on which no call fails (so every listed source file is well-formed
    UTF-8), a source file of [FILES] is copied under the same name into
    the destination directory, and the copy holds the marker, which is one
    line, followed by the text of the source as text mode reads it: every
    ["\r\n"] and every other ["\r"] has become ["\n"].  When the source
    holds no ["\r"], the copy is the marker line followed by the source
    content unchanged. *)
Theorem main_copy_is_marker_then_text m f content :
  no_io_error sd m = true -> In f FILES ->
  m !! (SRC </> f) = Some (File content) ->
  fs (snd (main sd (boot m))) !! (DST </> f)
  = Some (File ((MARKER_LINE +:+ Text.nl) +:+ Text.universal_newlines content))
  /\ (Text.no_cr content = true ->
      fs (snd (main sd (boot m))) !! (DST </> f)
      = Some (File ((MARKER_LINE +:+ Text.nl) +:+ content)))
  /\ Text.replace MARKER_LINE Text.nl EmptyString = MARKER_LINE.
Proof.
  intros Hok Hf Hsrc. rewrite (main_copies m f content Hok Hf Hsrc).
  split; [reflexivity|]. split; [|reflexivity].
  intros Hcr. rewrite (TextFacts.universal_newlines_no_cr _ Hcr). reflexivity.
Qed.

(** C7.  Every call of [main] that names a path names the destination
    directory ([mkdir]), a listed file of the source directory ([exists],
    [open] for reading) or a listed file of the destination directory
    ([open] for writing); an entry that differs after the run is the
    destination directory or lies in it; and when the source directory
    exists and [en] does not, [en] is a directory after the run. *)
Theorem main_stays_in_its_directories m :
  Forall (event_in_scope sd) (trace (snd (main sd (boot m)))) /\
  (forall p, fs (snd (main sd (boot m))) !! p <> m !! p ->
     p = DST \/ parent p = DST) /\
  (m !! SRC = Some Dir -> m !! DST = None ->
   fs (snd (main sd (boot m))) !! DST = Some Dir).
Proof.
  rewrite main_run. cbn [boot fs trace app].
  destruct (mkdir_outcome sd m) as [[]|e] eqn:Hmk; cbn [snd fs trace].
  - split; [|split].
    + apply Forall_cons_2; [reflexivity|].
      apply loop_events_scope. auto.
    + intros p Hp. destruct (decide (p = DST)) as [|Hne]; [left; assumption|].
      right. destruct (decide (parent p = DST)) as [|Hpar]; [assumption|].
      destruct Hp. rewrite loop_fs_other.
      * apply after_mkdir_other, Hne.
      * intros f _ ->. apply Hpar, parent_joinpath.
    + intros _ _. rewrite loop_fs_other by (intros; apply dstdir_neq_dst).
      apply after_mkdir_dir, Hmk.
  - split; [|split].
    + apply Forall_cons_2; [reflexivity|apply Forall_nil_2].
    + intros p Hp. destruct Hp. reflexivity.
    + intros H1 H2. unfold mkdir_outcome in Hmk. rewrite H1, H2 in Hmk.
      discriminate.
Qed.

(** C8.  [FILES] holds exactly nine names, all different.  The notices
    printed by [main] follow the order of [FILES], one per name, also on
    a run that an exception cuts short.  On a state on which no call
    fails, [main] returns, and after [mkdir] its calls are, name after
    name in the order of [FILES], the calls of that name's iteration:
    [exists], then either the missing notice, or the read, the write and
    the translated notice.  On such a state, for every name [f] of
    [FILES]: when the iteration of [f] starts, the names before it have
    been handled in full (their calls are made, their notices printed and
    the copy of each that has a source is on disk, marker line first) and
    nothing of [f] or of a later name has been written; the iteration of
    [f] returns having written the copy of [f] and nothing else; and
    [main] goes on from there with the names after [f]. *)
Theorem main_processes_files_in_order m :
  length FILES = 9 /\ NoDup FILES /\
  printed (trace (snd (main sd (boot m)))) `prefix_of` map (notice_for sd m) FILES /\
  (no_io_error sd m = true ->
   fst (main sd (boot m)) = Done tt /\
   trace (snd (main sd (boot m)))
   = Mkdir DST :: flat_map (file_events sd m) FILES /\
   printed (trace (snd (main sd (boot m)))) = map (notice_for sd m) FILES /\
   forall pre f post, FILES = (pre ++ f :: post)%list ->
     fst (main_upto sd pre (boot m)) = Done tt /\
     trace (snd (main_upto sd pre (boot m)))
     = Mkdir DST :: flat_map (file_events sd m) pre /\
     (forall g c, In g pre -> m !! (SRC </> g) = Some (File c) ->
        fs (snd (main_upto sd pre (boot m))) !! (DST </> g)
        = Some (File ((MARKER_LINE +:+ Text.nl) +:+ Text.universal_newlines c))) /\
     (forall g, In g (f :: post) ->
        fs (snd (main_upto sd pre (boot m))) !! (DST </> g) = m !! (DST </> g)) /\
     translate_one sd f (snd (main_upto sd pre (boot m)))
     = (Done tt,
        World
          match m !! (SRC </> f) with
          | Some (File c) =>
              <[DST </> f :=
                  File ((MARKER_LINE +:+ Text.nl) +:+ Text.universal_newlines c)]>
                (fs (snd (main_upto sd pre (boot m))))
          | _ => fs (snd (main_upto sd pre (boot m)))
          end
          (trace (snd (main_upto sd pre (boot m))) ++ file_events sd m f)) /\
     main sd (boot m)
     = for_each post (translate_one sd)
         (snd (translate_one sd f (snd (main_upto sd pre (boot m)))))).
Proof.
  split; [reflexivity|]. split; [apply (bool_decide_unpack _); reflexivity|].
  split.
  - rewrite main_run. cbn [boot fs trace app].
    destruct (mkdir_outcome sd m); cbn [snd trace printed].
    + apply loop_printed_prefix. intros f Hf. apply plan_printed, Hf.
    + apply prefix_nil.
  - intros Hok. split; [apply main_done_iff, Hok|].
    rewrite (main_trace_ok m Hok). split; [reflexivity|].
    split; [cbn [printed]; apply printed_flat_map|].
    intros pre f post Hsplit.
    destruct (main_upto_ok m pre f post Hok Hsplit) as (H1 & H2 & H3 & H4 & H5).
    split; [exact H1|]. split; [exact H2|]. split; [exact H3|].
    split; [exact H4|]. split; [exact H5|].
    apply (main_resumes pre f post _ (snd (main_upto sd pre (boot m)))); [exact Hsplit| |].
    + destruct (main_upto sd pre (boot m)) as [r w1]. cbn [fst snd] in *.
      rewrite H1. reflexivity.
    + rewrite H5. reflexivity.
Qed.

(** C9.  [main] leaves every path other than the destination directory
    and the nine destinations [en/<name>] as it found it; and every file
    of the source directory, listed or not, keeps its content. *)
Theorem main_frame m :
  (forall p, p <> DST -> (forall f, In f FILES -> p <> DST </> f) ->
     fs (snd (main sd (boot m))) !! p = m !! p) /\
  (forall name content, m !! (SRC </> name) = Some (File content) ->
     fs (snd (main sd (boot m))) !! (SRC </> name) = Some (File content)).
Proof.
  rewrite main_run. cbn [boot fs trace app].
  destruct (mkdir_outcome sd m) as [[]|e] eqn:Hmk; cbn [snd fs];
    [|split; auto].
  split.
  - intros p Hp Hfiles. rewrite loop_fs_other by exact Hfiles.
    apply after_mkdir_other, Hp.
  - intros name content Hsrc.
    rewrite loop_fs_other by (intros; apply src_neq_dst).
    unfold after_mkdir. destruct (m !! DST) eqn:Hd; [exact Hsrc|].
    rewrite lookup_insert_ne; [exact Hsrc|].
    intros E. rewrite E, Hsrc in Hd. discriminate.
Qed.

(** C10.  Two runs of [main] from file systems that agree on the paths
    [main] looks at, whatever was traced before, end the same way, make
    the same calls and print the same lines, and leave the same entries
    at those paths; from identical file systems they leave identical
    file systems. *)
Theorem main_deterministic (m1 m2 : gmap path node) t1 t2 :
  Forall (fun p => m1 !! p = m2 !! p) (footprint sd) ->
  fst (main sd (World m1 t1)) = fst (main sd (World m2 t2)) /\
  (exists evs,
     trace (snd (main sd (World m1 t1))) = (t1 ++ evs)%list /\
     trace (snd (main sd (World m2 t2))) = (t2 ++ evs)%list) /\
  Forall (fun p => fs (snd (main sd (World m1 t1))) !! p
                   = fs (snd (main sd (World m2 t2))) !! p) (footprint sd) /\
  (m1 = m2 -> fs (snd (main sd (World m1 t1))) = fs (snd (main sd (World m2 t2)))).
Proof.
  intros Hagree. pose proof Hagree as Hfoot.
  apply footprint_agree in Hagree as (Hs & Hd & Hf).
  rewrite !main_run. cbn [fs trace].
  assert (Hmk : mkdir_outcome sd m1 = mkdir_outcome sd m2)
    by (unfold mkdir_outcome; rewrite Hs, Hd; reflexivity).
  rewrite Hmk. destruct (mkdir_outcome sd m2) as [[]|e]; cbn [fst snd fs trace].
  - assert (Hpl : forall f, In f FILES ->
              plan sd (after_mkdir sd m1) f = plan sd (after_mkdir sd m2) f).
    { intros f Hin. destruct (Hf f Hin) as [Ha Hb].
      apply plan_agree; apply after_mkdir_agree; assumption. }
    rewrite (loop_outcome_ext_in _ _ FILES Hpl).
    rewrite (loop_events_ext_in _ _ FILES Hpl).
    split; [reflexivity|]. split; [eexists; split; reflexivity|]. split.
    + apply List.Forall_forall. intros p Hp.
      apply loop_fs_agree; [exact Hpl|].
      apply after_mkdir_agree; [exact Hd|].
      exact (proj1 (List.Forall_forall _ _) Hfoot p Hp).
    + intros ->. reflexivity.
  - split; [reflexivity|]. split; [eexists; split; reflexivity|].
    split; [exact Hfoot|auto].
Qed.

End ScriptFacts.

(** ** The claims on concrete file systems *)

Example main_on_faq_calls :
  trace (snd (main here (boot fs_faq)))
  = [ Mkdir (docs </> "en");
      Stat (docs </> "OVERVIEW.md"); PrintLine "Source file missing: OVERVIEW.md";
      Stat (docs </> "QUICK_START.md"); PrintLine "Source file missing: QUICK_START.md";
      Stat (docs </> "FRONTEND_INTEGRATION.md");
      PrintLine "Source file missing: FRONTEND_INTEGRATION.md";
      Stat (docs </> "INTERMEDIATE_GUIDE.md");
      PrintLine "Source file missing: INTERMEDIATE_GUIDE.md";
      Stat (docs </> "EXPERT_GUIDE.md"); PrintLine "Source file missing: EXPERT_GUIDE.md";
      Stat (docs </> "MIGRATION_V1_V2.md");
      PrintLine "Source file missing: MIGRATION_V1_V2.md";
      Stat (docs </> "IMPLEMENTATION_NOTES.md");
      PrintLine "Source file missing: IMPLEMENTATION_NOTES.md";
      Stat (docs </> "FAQ.md"); OpenRead (docs </> "FAQ.md");
      OpenWrite (docs </> "en" </> "FAQ.md");
      PrintLine "Translated FAQ.md -> en/FAQ.md";
      Stat (docs </> "CONTRIBUTING.md");
      PrintLine "Source file missing: CONTRIBUTING.md" ].
Proof. vm_compute. reflexivity. Qed.

(** A source that is not UTF-8 stops the run at its read, before
    anything is written or printed for it. *)
Example main_raises_on_latin1_source :
  no_io_error here fs_latin1 = false /\
  main here (boot fs_latin1)
  = (Raised UnicodeDecodeError,
     World (<[ docs </> "en" := Dir ]> fs_latin1)
           [ Mkdir (docs </> "en");
             Stat (docs </> "OVERVIEW.md"); OpenRead (docs </> "OVERVIEW.md") ]).
Proof. vm_compute. split; reflexivity. Qed.

(** A destination that is a directory stops the run with the files before
    it already written. *)
Example main_raises_on_directory_destination :
  let m := <[ docs </> "en" </> "FAQ.md" := Dir ]> (<[ docs </> "en" := Dir ]> fs_faq) in
  no_io_error here m = false /\
  fst (main here (boot m)) = Raised IsADirectoryError.
Proof. vm_compute. split; reflexivity. Qed.


Lemma main_faq_example_witness :
  fst (main here (boot fs_faq)) = Done tt /\
  fs (snd (main here (boot fs_faq))) !! (DST_DIR here </> "FAQ.md")
  = Some (File ("<!-- TRANSLATED TO ENGLISH (replace with real translation) -->"
                +:+ Text.nl +:+ "# FAQ" +:+ Text.nl)).
Proof.
  apply (main_faq_example here fs_faq).
  - vm_compute. reflexivity.
  - vm_compute. reflexivity.
Defined.

Lemma main_skips_missing_source_witness :
  fs (snd (main here (boot fs_faq))) !! (DST_DIR here </> "OVERVIEW.md") = None /\
  In "Source file missing: OVERVIEW.md" (printed (trace (snd (main here (boot fs_faq))))).
Proof.
  destruct (main_skips_missing_source here fs_faq "OVERVIEW.md") as (_ & Hdst & Hrun).
  - cbn. tauto.
  - vm_compute. reflexivity.
  - split; [exact Hdst|]. apply Hrun. vm_compute. reflexivity.
Defined.

Lemma link_rewrite_is_noop_witness :
  fs (snd (main here (boot fs_crlf))) !! (DST_DIR here </> "FAQ.md")
  = Some (File (fake_translate (Text.universal_newlines crlf_text)))
  /\ fs (snd (main here (boot fs_faq))) !! (DST_DIR here </> "FAQ.md")
     = Some (File (fake_translate ("# FAQ" +:+ Text.nl))).
Proof.
  destruct (link_rewrite_is_noop here) as (_ & _ & Hcopy). split.
  - apply (Hcopy fs_crlf "FAQ.md" crlf_text).
    + vm_compute. reflexivity.
    + cbn. tauto.
    + vm_compute. reflexivity.
  - apply (Hcopy fs_faq "FAQ.md" ("# FAQ" +:+ Text.nl)).
    + vm_compute. reflexivity.
    + cbn. tauto.
    + vm_compute. reflexivity.
    + vm_compute. reflexivity.
Defined.

Lemma main_rerun_idempotent_witness :
  fs (snd (main here (boot (fs (snd (main here (boot fs_faq)))))))
  !! (DST_DIR here </> "FAQ.md")
  = fs (snd (main here (boot fs_faq))) !! (DST_DIR here </> "FAQ.md").
Proof.
  apply (main_rerun_idempotent here fs_faq). cbn. tauto.
Defined.

Lemma main_copy_is_marker_then_text_witness :
  fs (snd (main here (boot fs_faq))) !! (DST_DIR here </> "FAQ.md")
  = Some (File ((MARKER_LINE +:+ Text.nl) +:+ "# FAQ" +:+ Text.nl)).
Proof.
  apply (main_copy_is_marker_then_text here fs_faq "FAQ.md" ("# FAQ" +:+ Text.nl)).
  - vm_compute. reflexivity.
  - cbn. tauto.
  - vm_compute. reflexivity.
  - vm_compute. reflexivity.
Defined.

Lemma main_stays_in_its_directories_witness :
  fs (snd (main here (boot fs_faq))) !! DST_DIR here = Some Dir.
Proof.
  apply (main_stays_in_its_directories here fs_faq).
  - vm_compute. reflexivity.
  - vm_compute. reflexivity.
Defined.

Lemma main_processes_files_in_order_witness :
  printed (trace (snd (main here (boot fs_faq))))
  = map (notice_for here fs_faq) FILES
  /\ fs (snd (main_upto here
                [ "OVERVIEW.md"; "QUICK_START.md"; "FRONTEND_INTEGRATION.md";
                  "INTERMEDIATE_GUIDE.md"; "EXPERT_GUIDE.md";
                  "MIGRATION_V1_V2.md"; "IMPLEMENTATION_NOTES.md" ]
                (boot fs_faq)))
     !! (DST_DIR here </> "FAQ.md")
     = fs_faq !! (DST_DIR here </> "FAQ.md").
Proof.
  destruct (main_processes_files_in_order here fs_faq) as (_ & _ & _ & Hrun).
  destruct Hrun as (_ & _ & Hprinted & Hsteps); [vm_compute; reflexivity|].
  split; [exact Hprinted|].
  destruct (Hsteps
              [ "OVERVIEW.md"; "QUICK_START.md"; "FRONTEND_INTEGRATION.md";
                "INTERMEDIATE_GUIDE.md"; "EXPERT_GUIDE.md";
                "MIGRATION_V1_V2.md"; "IMPLEMENTATION_NOTES.md" ]
              "FAQ.md" ["CONTRIBUTING.md"] eq_refl)
    as (_ & _ & _ & Hlater & _).
  apply Hlater. left. reflexivity.
Defined.

Lemma main_frame_witness :
  fs (snd (main here (boot fs_faq_notes))) !! (docs </> "NOTES.txt")
  = Some (File "keep").
Proof.
  apply (main_frame here fs_faq_notes). vm_compute. reflexivity.
Defined.

Lemma main_deterministic_witness :
  fst (main here (World fs_faq [])) = fst (main here (World fs_faq_notes [PrintLine "earlier"])) /\
  (exists evs,
     trace (snd (main here (World fs_faq []))) = evs /\
     trace (snd (main here (World fs_faq_notes [PrintLine "earlier"]))) = PrintLine "earlier" :: evs).
Proof.
  destruct (main_deterministic here fs_faq fs_faq_notes [] [PrintLine "earlier"])
    as (Hend & Hcalls & _).
  - unfold footprint, FILES. cbn [flat_map app].
    repeat (apply Forall_cons_2; [vm_compute; reflexivity|]). apply Forall_nil_2.
  - split; [exact Hend|exact Hcalls].
Defined.

(** C6 as the specification states it fails on a source with a Windows
    line ending: from ["a\r\nb"] the copy holds the marker line and
    ["a\nb"], which does not end with the source content. *)
Lemma copy_of_crlf_source_is_not_verbatim :
  (tree_shaped fs_crlf = true /\
   no_io_error here fs_crlf = true /\
   fs_crlf !! (SRC_DIR here </> "FAQ.md") = Some (File crlf_text) /\
   fs (snd (main here (boot fs_crlf))) !! (DST_DIR here </> "FAQ.md")
   = Some (File ((MARKER_LINE +:+ Text.nl) +:+ "a" +:+ Text.nl +:+ "b")) /\
   ends_with ((MARKER_LINE +:+ Text.nl) +:+ "a" +:+ Text.nl +:+ "b") crlf_text = false)
  /\
  ~ (forall (sd : path) (m : gmap path node) (f content : string),
       no_io_error sd m = true -> In f FILES ->
       m !! (SRC_DIR sd </> f) = Some (File content) ->
       fs (snd (main sd (boot m))) !! (DST_DIR sd </> f)
       = Some (File ((MARKER_LINE +:+ Text.nl) +:+ content))).
Proof.
  split.
  - repeat split; vm_compute; reflexivity.
  - intros H.
    specialize (H here fs_crlf "FAQ.md" crlf_text).
    assert (Hin : In "FAQ.md" FILES) by (cbn; tauto).
    specialize (H eq_refl Hin eq_refl).
    vm_compute in H. discriminate H.
Qed.

(** C4 as the specification states it fails on the same source: the copy
    of ["a\r\nb"] is [fake_translate] of ["a\nb"], the text read, and
    not [fake_translate] of the source content. *)
Lemma copy_of_crlf_source_is_not_its_translation :
  (no_io_error here fs_crlf = true /\
   fs_crlf !! (SRC_DIR here </> "FAQ.md") = Some (File crlf_text) /\
   fs (snd (main here (boot fs_crlf))) !! (DST_DIR here </> "FAQ.md")
   = Some (File (fake_translate ("a" +:+ Text.nl +:+ "b"))) /\
   fake_translate ("a" +:+ Text.nl +:+ "b") <> fake_translate crlf_text)
  /\
  ~ (forall (sd : path) (m : gmap path node) (f content : string),
       no_io_error sd m = true -> In f FILES ->
       m !! (SRC_DIR sd </> f) = Some (File content) ->
       fs (snd (main sd (boot m))) !! (DST_DIR sd </> f)
       = Some (File (fake_translate content))).
Proof.
  split.
  - repeat split; try (vm_compute; reflexivity). vm_compute. discriminate.
  - intros H.
    specialize (H here fs_crlf "FAQ.md" crlf_text).
    assert (Hin : In "FAQ.md" FILES) by (cbn; tauto).
    specialize (H eq_refl Hin eq_refl).
    vm_compute in H. discriminate H.
Qed.

(** * Beyond the specification: failures, partial runs and invariants of
    [main] *)

(** ** Text mode never hands out a carriage return *)

Lemma no_cr_append a b :
  Text.no_cr (a +:+ b) = Text.no_cr a && Text.no_cr b.
Proof.
  induction a as [|c a IH]; [reflexivity|].
  rewrite TextFacts.append_cons. cbn [Text.no_cr]. rewrite IH.
  apply andb_assoc.
Qed.

Lemma no_cr_universal_newlines_bounded : forall n s,
  String.length s <= n -> Text.no_cr (Text.universal_newlines s) = true.
Proof.
  induction n as [|n IH]; intros s Hn.
  - destruct s; [reflexivity|cbn in Hn; lia].
  - destruct s as [|c s]; [reflexivity|]. cbn [String.length] in Hn.
    cbn [Text.universal_newlines].
    destruct (Ascii.eqb c Text.CR) eqn:Hc.
    + destruct s as [|c' s']; [reflexivity|].
      cbn [String.length] in Hn.
      destruct (Ascii.eqb c' Text.LF); cbn [Text.no_cr]; rewrite IH;
        solve [reflexivity | cbn [String.length]; lia].
    + cbn [Text.no_cr]. rewrite Hc, IH by lia. reflexivity.
Qed.

Lemma no_cr_universal_newlines s :
  Text.no_cr (Text.universal_newlines s) = true.
Proof. apply (no_cr_universal_newlines_bounded (String.length s)). lia. Qed.

(** ** The loop over a list cut in two *)

Section LoopSplit.

Variable sd : path.
Variable pl : string -> action.

Lemma loop_outcome_app pre l :
  (forall g, In g pre -> action_outcome (pl g) = Done tt) ->
  loop_outcome pl (pre ++ l) = loop_outcome pl l.
Proof.
  induction pre as [|g pre IH]; intros H; [reflexivity|].
  cbn [app loop_outcome]. rewrite (H g (or_introl eq_refl)).
  apply IH. intros h Hh. apply H. right. exact Hh.
Qed.

Lemma loop_fs_app pre l : forall m,
  (forall g, In g pre -> action_outcome (pl g) = Done tt) ->
  loop_fs sd pl (pre ++ l) m = loop_fs sd pl l (loop_fs sd pl pre m).
Proof.
  induction pre as [|g pre IH]; intros m H; [reflexivity|].
  cbn [app loop_fs]. rewrite (H g (or_introl eq_refl)).
  apply IH. intros h Hh. apply H. right. exact Hh.
Qed.

Lemma loop_events_app pre l :
  (forall g, In g pre -> action_outcome (pl g) = Done tt) ->
  loop_events sd pl (pre ++ l)
  = (loop_events sd pl pre ++ loop_events sd pl l)%list.
Proof.
  induction pre as [|g pre IH]; intros H; [reflexivity|].
  cbn [app loop_events]. rewrite (H g (or_introl eq_refl)).
  rewrite IH by (intros h Hh; apply H; right; exact Hh).
  apply app_assoc.
Qed.

Lemma loop_outcome_raised e : forall l,
  loop_outcome pl l = Raised e ->
  exists f, In f l /\ action_outcome (pl f) = Raised e.
Proof.
  induction l as [|g l IH]; cbn [loop_outcome]; [discriminate|].
  destruct (action_outcome (pl g)) as [[]|e'] eqn:Hg; intros H.
  - destruct (IH H) as (f & Hf & He). exists f. split; [right|]; assumption.
  - exists g. split; [left; reflexivity|congruence].
Qed.

Lemma loop_fs_all_skipped : forall l m,
  (forall g, In g l -> pl g = Skip) -> loop_fs sd pl l m = m.
Proof.
  induction l as [|g l IH]; intros m H; [reflexivity|].
  cbn [loop_fs]. rewrite (H g (or_introl eq_refl)). cbn.
  apply IH. intros h Hh. apply H. right. exact Hh.
Qed.

End LoopSplit.

Section Failures.

Variable sd : path.

Local Abbreviation SRC := (SRC_DIR sd).
Local Abbreviation DST := (DST_DIR sd).

Lemma plan_copy_not_dir (m : gmap path node) g text :
  plan sd m g = Copy text -> m !! (DST </> g) <> Some Dir.
Proof.
  unfold plan.
  destruct (m !! (SRC </> g)) as [[c|]|]; try discriminate.
  destruct (Text.utf8_valid c); try discriminate.
  destruct (m !! DST) as [[?|]|]; try discriminate.
  destruct (m !! (DST </> g)) as [[?|]|]; discriminate.
Qed.

Lemma plan_failure (m : gmap path node) f :
  mkdir_outcome sd m = Done tt -> In f FILES -> file_ready sd m f = false ->
  action_outcome (plan sd (after_mkdir sd m) f) = Raised (failure_of sd m f).
Proof.
  intros Hmk Hf. unfold plan, file_ready, failure_of.
  rewrite after_mkdir_other by (apply src_listed_neq_dstdir, Hf).
  rewrite (after_mkdir_dir _ _ Hmk).
  rewrite after_mkdir_other by (apply not_eq_sym, dstdir_neq_dst).
  destruct (m !! (SRC </> f)) as [[c|]|]; cbn; try discriminate;
    [|reflexivity].
  destruct (Text.utf8_valid c); cbn; [|reflexivity].
  destruct (m !! (DST </> f)) as [[?|]|]; cbn; try discriminate. reflexivity.
Qed.

Lemma plan_raises_cause (m : gmap path node) f e :
  mkdir_outcome sd m = Done tt -> In f FILES ->
  action_outcome (plan sd (after_mkdir sd m) f) = Raised e ->
  (e = UnicodeDecodeError /\
   exists c, m !! (SRC </> f) = Some (File c) /\ Text.utf8_valid c = false) \/
  (e = IsADirectoryError /\
   (m !! (SRC </> f) = Some Dir \/
    exists c, m !! (SRC </> f) = Some (File c) /\ Text.utf8_valid c = true /\
              m !! (DST </> f) = Some Dir)).
Proof.
  intros Hmk Hf. unfold plan.
  rewrite after_mkdir_other by (apply src_listed_neq_dstdir, Hf).
  rewrite (after_mkdir_dir _ _ Hmk).
  rewrite after_mkdir_other by (apply not_eq_sym, dstdir_neq_dst).
  destruct (m !! (SRC </> f)) as [[c|]|]; cbn; try discriminate.
  - destruct (Text.utf8_valid c) eqn:Hv; cbn.
    + destruct (m !! (DST </> f)) as [[?|]|]; cbn; try discriminate.
      intros [= <-]. right. split; [reflexivity|]. right. eauto.
    + intros [= <-]. left. eauto.
  - intros [= <-]. right. auto.
Qed.

Lemma mkdir_outcome_done (m : gmap path node) :
  mkdir_outcome sd m = Done tt <->
  m !! SRC = Some Dir /\ (forall c, m !! DST <> Some (File c)).
Proof.
  unfold mkdir_outcome.
  destruct (m !! SRC) as [[?|]|]; destruct (m !! DST) as [[?|]|];
    split; try discriminate; try (intros [H _]; discriminate);
    try (intros _; split; [reflexivity|discriminate]);
    try reflexivity.
  intros [_ H]. destruct (H _ eq_refl).
Qed.

(** [exist_ok=True] forgives an existing directory only: with a regular
    file at [en], [main] raises [FileExistsError] from [mkdir], before it
    looks at any source, and leaves the file system as it is. *)
Theorem main_raises_when_en_is_a_file (m : gmap path node) content :
  m !! SRC = Some Dir -> m !! DST = Some (File content) ->
  main sd (boot m) = (Raised FileExistsError, World m [Mkdir DST]).
Proof.
  intros Hs Hd. rewrite main_run. cbn [boot fs trace app].
  unfold mkdir_outcome. rewrite Hs, Hd. reflexivity.
Qed.

(** [mkdir] is called without [parents=True]: when the source directory is
    absent [main] raises [FileNotFoundError], when it is a regular file
    [NotADirectoryError]; in both cases nothing is created and nothing is
    printed. *)
Theorem main_raises_without_source_directory (m : gmap path node) :
  (m !! SRC = None ->
   main sd (boot m) = (Raised FileNotFoundError, World m [Mkdir DST])) /\
  (forall content, m !! SRC = Some (File content) ->
   main sd (boot m) = (Raised NotADirectoryError, World m [Mkdir DST])).
Proof.
  split; [intros Hs|intros content Hs];
    rewrite main_run; cbn [boot fs trace app];
    unfold mkdir_outcome; rewrite Hs; reflexivity.
Qed.

(** [main] returns normally exactly when the source directory is a
    directory, [en] is not a regular file, no listed source is a directory,
    every listed source file holds well-formed UTF-8 and none of them has
    a directory at its destination. *)
Theorem main_returns_iff (m : gmap path node) :
  fst (main sd (boot m)) = Done tt <->
  m !! SRC = Some Dir /\
  (forall c, m !! DST <> Some (File c)) /\
  (forall f, In f FILES ->
     m !! (SRC </> f) <> Some Dir /\
     (forall c, m !! (SRC </> f) = Some (File c) ->
        Text.utf8_valid c = true /\ m !! (DST </> f) <> Some Dir)).
Proof.
  rewrite (main_done_iff sd (boot m)). cbn [boot fs].
  rewrite no_io_error_spec, mkdir_outcome_done.
  assert (Hready : forall f,
    file_ready sd m f = true <->
    m !! (SRC </> f) <> Some Dir /\
    (forall c, m !! (SRC </> f) = Some (File c) ->
       Text.utf8_valid c = true /\ m !! (DST </> f) <> Some Dir)).
  { intros f. split.
    - intros Hr. split.
      + intros E. unfold file_ready in Hr. rewrite E in Hr. discriminate.
      + intros c E. apply (file_ready_file sd m f c Hr E).
    - intros [Hnd Hfile]. unfold file_ready.
      destruct (m !! (SRC </> f)) as [[c|]|]; [|destruct (Hnd eq_refl)|reflexivity].
      destruct (Hfile c eq_refl) as [-> Hd].
      destruct (m !! (DST </> f)) as [[?|]|]; try reflexivity.
      destruct (Hd eq_refl). }
  split.
  - intros [[H1 H2] H3]. split; [exact H1|]. split; [exact H2|].
    intros f Hf. apply Hready, H3, Hf.
  - intros (H1 & H2 & H3). split; [split; assumption|].
    intros f Hf. apply Hready, H3, Hf.
Qed.

(** When [main] raises, the exception and what caused it: one of the three
    of [mkdir]; [UnicodeDecodeError] for a listed source file that is not
    UTF-8; [IsADirectoryError] for a listed source that is a directory or a
    listed source file whose destination is one. *)
Theorem main_raises_only (m : gmap path node) e :
  fst (main sd (boot m)) = Raised e ->
  (e = FileNotFoundError /\ m !! SRC = None) \/
  (e = NotADirectoryError /\ exists c, m !! SRC = Some (File c)) \/
  (e = FileExistsError /\ exists c, m !! DST = Some (File c)) \/
  (e = UnicodeDecodeError /\
   exists f c, In f FILES /\ m !! (SRC </> f) = Some (File c) /\
               Text.utf8_valid c = false) \/
  (e = IsADirectoryError /\
   exists f, In f FILES /\
     (m !! (SRC </> f) = Some Dir \/
      exists c, m !! (SRC </> f) = Some (File c) /\ Text.utf8_valid c = true /\
                m !! (DST </> f) = Some Dir)).
Proof.
  rewrite main_run. cbn [boot fs trace].
  destruct (mkdir_outcome sd m) as [[]|e'] eqn:Hmk; cbn [fst].
  - intros H. apply loop_outcome_raised in H as (f & Hf & He).
    destruct (plan_raises_cause m f e Hmk Hf He) as [[-> (c & Hc & Hv)]|[-> Hdir]].
    + right. right. right. left. split; [reflexivity|]. exists f, c. auto.
    + right. right. right. right. split; [reflexivity|]. exists f. auto.
  - intros [= ->]. unfold mkdir_outcome in Hmk.
    destruct (m !! SRC) as [[c|]|] eqn:Hs.
    + injection Hmk as <-. right. left. eauto.
    + destruct (m !! DST) as [[c|]|] eqn:Hd; try discriminate.
      injection Hmk as <-. right. right. left. eauto.
    + injection Hmk as <-. left. auto.
Qed.

End Failures.

Section Invariants.

Variable sd : path.

Local Abbreviation SRC := (SRC_DIR sd).
Local Abbreviation DST := (DST_DIR sd).

(** The loop keeps what kind of node every path holds. *)
Lemma loop_fs_kind pl (p : path) : forall l (m : gmap path node),
  (forall f, plan sd m f = pl f) ->
  (m !! p = Some Dir -> loop_fs sd pl l m !! p = Some Dir) /\
  (forall c, m !! p = Some (File c) ->
     exists c', loop_fs sd pl l m !! p = Some (File c')).
Proof.
  induction l as [|g l IH]; intros m Hpl; [split; eauto|].
  cbn [loop_fs]. destruct (action_outcome (pl g)); [|split; eauto].
  assert (Hnext : forall f, plan sd (action_fs sd g (pl g) m) f = pl f).
  { intros f. rewrite <- (Hpl g), plan_action_fs. apply Hpl. }
  destruct (IH _ Hnext) as [IHd IHf].
  destruct (pl g) as [|text| |] eqn:Hg; cbn [action_fs] in *;
    try (split; assumption).
  pose proof (plan_copy_not_dir sd m g text (eq_trans (Hpl g) Hg)) as Hnd.
  destruct (decide (p = DST </> g)) as [->|Hne].
  - split; [intros E; destruct (Hnd E)|].
    intros c _. apply (IHf text), lookup_insert_eq.
  - split.
    + intros E. apply IHd. rewrite lookup_insert_ne by congruence. exact E.
    + intros c E. apply (IHf c). rewrite lookup_insert_ne by congruence. exact E.
Qed.

(** [main] removes nothing and turns no directory into a file or file into
    a directory: a path that held a directory still holds one, a path that
    held a file still holds a file. *)
Theorem main_keeps_every_node_kind (m : gmap path node) (p : path) :
  (m !! p = Some Dir -> fs (snd (main sd (boot m))) !! p = Some Dir) /\
  (forall c, m !! p = Some (File c) ->
     exists c', fs (snd (main sd (boot m))) !! p = Some (File c')).
Proof.
  rewrite main_run. cbn [boot fs trace].
  destruct (mkdir_outcome sd m) as [[]|e] eqn:Hmk; cbn [snd fs];
    [|split; eauto].
  destruct (loop_fs_kind (plan sd (after_mkdir sd m)) p FILES (after_mkdir sd m))
    as [Hd Hf]; [reflexivity|].
  assert (Hsame : forall n, m !! p = Some n -> after_mkdir sd m !! p = Some n).
  { intros n E. unfold after_mkdir. destruct (m !! DST) eqn:Hdst; [exact E|].
    rewrite lookup_insert_ne; [exact E|]. intros <-. congruence. }
  split.
  - intros E. apply Hd, Hsame, E.
  - intros c E. apply (Hf c), Hsame, E.
Qed.

(** Whatever [main] creates or rewrites lies in a directory: after the
    run, the parent of every path whose entry differs is a directory. *)
Theorem main_writes_inside_directories (m : gmap path node) (p : path) :
  fs (snd (main sd (boot m))) !! p <> m !! p ->
  fs (snd (main sd (boot m))) !! parent p = Some Dir.
Proof.
  rewrite main_run. cbn [boot fs trace].
  destruct (mkdir_outcome sd m) as [[]|e] eqn:Hmk; cbn [snd fs];
    [|intros H; destruct H; reflexivity].
  intros Hp. destruct (decide (p = DST)) as [->|Hne].
  - change (parent DST) with (parent (SRC </> "en")). rewrite parent_joinpath.
    rewrite loop_fs_other by (intros; apply srcdir_neq_dst).
    rewrite after_mkdir_other by apply srcdir_neq_dstdir.
    apply (mkdir_done_src sd), Hmk.
  - destruct (decide (parent p = DST)) as [->|Hpar].
    + rewrite loop_fs_other by (intros; apply dstdir_neq_dst).
      apply after_mkdir_dir, Hmk.
    + destruct Hp. rewrite loop_fs_other.
      * apply after_mkdir_other, Hne.
      * intros f _ ->. apply Hpar, parent_joinpath.
Qed.

(** A second run from the state the first one left makes the same calls in
    the same order and prints the same lines, also when both raise. *)
Theorem main_rerun_repeats_its_calls (m : gmap path node) :
  trace (snd (main sd (boot (fs (snd (main sd (boot m)))))))
  = trace (snd (main sd (boot m))).
Proof.
  rewrite (main_run sd (boot m)). cbn [boot fs trace].
  destruct (mkdir_outcome sd m) as [[]|e] eqn:Hmk; cbn [snd fs trace].
  - set (m1 := after_mkdir sd m). set (pl := plan sd m1).
    set (m2 := loop_fs sd pl FILES m1).
    assert (Hsrc : m2 !! SRC = Some Dir).
    { unfold m2. rewrite loop_fs_other by (intros; apply srcdir_neq_dst).
      unfold m1. rewrite after_mkdir_other by apply srcdir_neq_dstdir.
      apply (mkdir_done_src sd), Hmk. }
    assert (Hdst : m2 !! DST = Some Dir).
    { unfold m2. rewrite loop_fs_other by (intros; apply dstdir_neq_dst).
      apply after_mkdir_dir, Hmk. }
    destruct (mkdir_again sd m2 Hsrc Hdst) as [Hmk2 Hfix].
    rewrite main_run. cbn [boot fs trace]. rewrite Hmk2, Hfix. cbn [snd trace].
    f_equal. f_equal. apply loop_events_ext. apply plan_loop_fs. reflexivity.
  - rewrite main_run. cbn [boot fs trace]. rewrite Hmk. reflexivity.
Qed.

(** On a host whose [os.linesep] is ["\n"], every copy has Unix line
    endings: on a state on which no call fails, whatever the line endings
    of a listed source file, the destination written for it holds no
    carriage return. *)
Theorem main_copies_hold_no_carriage_return (m : gmap path node) f content :
  no_io_error sd m = true -> In f FILES ->
  m !! (SRC </> f) = Some (File content) ->
  exists out,
    fs (snd (main sd (boot m))) !! (DST </> f) = Some (File out) /\
    Text.no_cr out = true.
Proof.
  intros Hok Hf Hsrc. eexists. split; [apply (main_copies sd m f content); assumption|].
  unfold fake_translate. rewrite no_cr_append, no_cr_universal_newlines.
  reflexivity.
Qed.

(** With none of the listed files in the source directory, [main] returns,
    prints the nine missing notices in list order, and its only effect on
    the file system is the directory [en], made when it was absent. *)
Theorem main_on_empty_source_directory (m : gmap path node) :
  m !! SRC = Some Dir -> (forall c, m !! DST <> Some (File c)) ->
  (forall f, In f FILES -> m !! (SRC </> f) = None) ->
  fst (main sd (boot m)) = Done tt /\
  fs (snd (main sd (boot m)))
  = match m !! DST with None => <[DST := Dir]> m | Some _ => m end /\
  printed (trace (snd (main sd (boot m)))) = map missing_notice FILES.
Proof.
  intros Hs Hd Hnone.
  assert (Hok : no_io_error sd m = true).
  { apply no_io_error_spec. split; [apply mkdir_outcome_done; auto|].
    intros f Hf. unfold file_ready. rewrite (Hnone f Hf). reflexivity. }
  split; [apply main_done_iff, Hok|]. split.
  - destruct (main_ok sd m Hok) as [_ ->]. cbn [snd fs].
    apply loop_fs_all_skipped. intros g Hg. apply plan_missing; auto.
  - rewrite (main_trace_ok sd m Hok). cbn [printed]. rewrite printed_flat_map.
    apply map_ext_in. intros f Hf. unfold notice_for.
    rewrite (Hnone f Hf). reflexivity.
Qed.

(** [main] is not atomic: when the iteration of [f] is the first to fail,
    because its source does not decode or because a directory lies where a
    file should, [main] raises that iteration's exception
    ([UnicodeDecodeError] or [IsADirectoryError]) having printed the
    notices of the names before [f] and written their copies, and the
    destinations of [f] and of the names after it are as they were. *)
Theorem main_stops_at_first_failure (m : gmap path node) pre f post :
  FILES = (pre ++ f :: post)%list ->
  m !! SRC = Some Dir -> (forall c, m !! DST <> Some (File c)) ->
  (forall g, In g pre -> file_ready sd m g = true) ->
  file_ready sd m f = false ->
  fst (main sd (boot m)) = Raised (failure_of sd m f) /\
  printed (trace (snd (main sd (boot m)))) = map (notice_for sd m) pre /\
  (forall g c, In g pre -> m !! (SRC </> g) = Some (File c) ->
     fs (snd (main sd (boot m))) !! (DST </> g)
     = Some (File (fake_translate (Text.universal_newlines c)))) /\
  (forall g, In g (f :: post) ->
     fs (snd (main sd (boot m))) !! (DST </> g) = m !! (DST </> g)).
Proof.
  intros Hsplit Hs Hd Hpre Hfail.
  assert (Hmk : mkdir_outcome sd m = Done tt) by (apply mkdir_outcome_done; auto).
  assert (Hin : forall g, In g (pre ++ f :: post) -> In g FILES)
    by (intros g Hg; rewrite Hsplit; exact Hg).
  assert (Hnodup : NoDup (pre ++ f :: post)).
  { rewrite <- Hsplit. apply (bool_decide_unpack _). reflexivity. }
  set (pl := plan sd (after_mkdir sd m)).
  assert (Hdone : forall g, In g pre -> action_outcome (pl g) = Done tt).
  { intros g Hg. apply (plan_ready sd m g Hmk).
    - apply Hin, in_or_app. left. exact Hg.
    - apply Hpre, Hg. }
  assert (Hf : In f FILES) by (apply Hin, in_or_app; right; left; reflexivity).
  pose proof (plan_failure sd m f Hmk Hf Hfail) as Hout. fold pl in Hout.
  rewrite main_run. cbn [boot fs trace]. rewrite Hmk. cbv zeta. fold pl.
  rewrite Hsplit.
  rewrite (loop_outcome_app pl pre (f :: post) Hdone).
  rewrite (loop_fs_app sd pl pre (f :: post) _ Hdone).
  rewrite (loop_events_app sd pl pre (f :: post) Hdone).
  cbn [loop_outcome loop_fs loop_events fst snd fs trace]. rewrite Hout.
  split; [reflexivity|]. split; [|split].
  - cbn [app printed]. rewrite !printed_app, app_nil_r.
    pose proof (plan_printed sd m f Hf) as Hp. fold pl in Hp.
    rewrite Hp, Hout, app_nil_r.
    rewrite (loop_events_ready sd pl (file_events sd m) pre).
    + apply printed_flat_map.
    + intros g Hg. split; [apply Hdone, Hg|].
      apply plan_events; [exact Hmk| |apply Hpre, Hg].
      apply Hin, in_or_app. left. exact Hg.
  - intros g c Hg Hsrc. apply loop_fs_written; [|apply loop_outcome_done; exact Hdone|exact Hg].
    apply plan_copy; [exact Hmk| |exact Hsrc|apply Hpre, Hg].
    apply Hin, in_or_app. left. exact Hg.
  - intros g Hg. rewrite loop_fs_other.
    + apply after_mkdir_other, not_eq_sym, dstdir_neq_dst.
    + intros h Hh E. apply dst_inj in E. subst h.
      apply NoDup_app in Hnodup as (_ & Hdisj & _).
      apply (Hdisj g); apply list_elem_of_In; assumption.
Qed.

End Invariants.

(** ** These facts on concrete file systems *)

Lemma main_raises_when_en_is_a_file_witness :
  main here (boot fs_en_file)
  = (Raised FileExistsError, World fs_en_file [Mkdir (docs </> "en")]).
Proof.
  apply (main_raises_when_en_is_a_file here fs_en_file "not a directory").
  - vm_compute. reflexivity.
  - vm_compute. reflexivity.
Defined.

Lemma main_raises_without_source_directory_witness :
  main here (boot ∅) = (Raised FileNotFoundError, World ∅ [Mkdir (docs </> "en")]).
Proof.
  apply (main_raises_without_source_directory here ∅). vm_compute. reflexivity.
Defined.

Lemma main_returns_iff_witness : fst (main here (boot fs_faq)) = Done tt.
Proof.
  apply (main_returns_iff here fs_faq). split; [|split].
  - vm_compute. reflexivity.
  - intros c. vm_compute. discriminate.
  - intros f Hf. cbn in Hf.
    repeat (destruct Hf as [<-|Hf];
            [split;
             [vm_compute; discriminate
             |intros c Hc; vm_compute in Hc;
              first [discriminate Hc
                    |injection Hc as <-; split; vm_compute;
                     first [reflexivity|discriminate]]]|]).
    destruct Hf.
Defined.

Lemma main_raises_only_witness :
  (UnicodeDecodeError = FileNotFoundError /\ fs_latin1 !! SRC_DIR here = None) \/
  (UnicodeDecodeError = NotADirectoryError /\
   exists c, fs_latin1 !! SRC_DIR here = Some (File c)) \/
  (UnicodeDecodeError = FileExistsError /\
   exists c, fs_latin1 !! DST_DIR here = Some (File c)) \/
  (UnicodeDecodeError = UnicodeDecodeError /\
   exists f c, In f FILES /\ fs_latin1 !! (SRC_DIR here </> f) = Some (File c) /\
               Text.utf8_valid c = false) \/
  (UnicodeDecodeError = IsADirectoryError /\
   exists f, In f FILES /\
     (fs_latin1 !! (SRC_DIR here </> f) = Some Dir \/
      exists c, fs_latin1 !! (SRC_DIR here </> f) = Some (File c) /\
                Text.utf8_valid c = true /\
                fs_latin1 !! (DST_DIR here </> f) = Some Dir)).
Proof.
  apply (main_raises_only here fs_latin1 UnicodeDecodeError).
  vm_compute. reflexivity.
Defined.

Lemma main_keeps_every_node_kind_witness :
  fs (snd (main here (boot fs_faq))) !! docs = Some Dir.
Proof.
  apply (main_keeps_every_node_kind here fs_faq docs). vm_compute. reflexivity.
Defined.

Lemma main_writes_inside_directories_witness :
  fs (snd (main here (boot fs_faq))) !! parent (docs </> "en" </> "FAQ.md") = Some Dir.
Proof.
  apply (main_writes_inside_directories here fs_faq (docs </> "en" </> "FAQ.md")).
  vm_compute. discriminate.
Defined.

Lemma main_copies_hold_no_carriage_return_witness :
  exists out,
    fs (snd (main here (boot fs_crlf))) !! (DST_DIR here </> "FAQ.md") = Some (File out) /\
    Text.no_cr out = true.
Proof.
  apply (main_copies_hold_no_carriage_return here fs_crlf "FAQ.md" crlf_text).
  - vm_compute. reflexivity.
  - cbn. tauto.
  - vm_compute. reflexivity.
Defined.

Lemma main_on_empty_source_directory_witness :
  fst (main here (boot fs_empty_docs)) = Done tt /\
  fs (snd (main here (boot fs_empty_docs)))
  = match fs_empty_docs !! DST_DIR here with
    | None => <[DST_DIR here := Dir]> fs_empty_docs
    | Some _ => fs_empty_docs
    end /\
  printed (trace (snd (main here (boot fs_empty_docs)))) = map missing_notice FILES.
Proof.
  apply (main_on_empty_source_directory here fs_empty_docs).
  - vm_compute. reflexivity.
  - intros c. vm_compute. discriminate.
  - intros f Hf. cbn in Hf.
    repeat (destruct Hf as [<-|Hf]; [vm_compute; reflexivity|]).
    destruct Hf.
Defined.

Lemma main_stops_at_first_failure_witness :
  fst (main here (boot fs_dir_source)) = Raised IsADirectoryError /\
  printed (trace (snd (main here (boot fs_dir_source))))
  = ["Translated OVERVIEW.md -> en/OVERVIEW.md"] /\
  fs (snd (main here (boot fs_dir_source))) !! (DST_DIR here </> "OVERVIEW.md")
  = Some (File (fake_translate "# Overview")) /\
  fs (snd (main here (boot fs_dir_source))) !! (DST_DIR here </> "FAQ.md") = None.
Proof.
  destruct (main_stops_at_first_failure here fs_dir_source
              ["OVERVIEW.md"] "QUICK_START.md"
              ["FRONTEND_INTEGRATION.md"; "INTERMEDIATE_GUIDE.md"; "EXPERT_GUIDE.md";
               "MIGRATION_V1_V2.md"; "IMPLEMENTATION_NOTES.md"; "FAQ.md";
               "CONTRIBUTING.md"])
    as (Hend & Hprinted & Hbefore & Hafter).
  - reflexivity.
  - vm_compute. reflexivity.
  - intros c. vm_compute. discriminate.
  - intros g [<-|[]]. vm_compute. reflexivity.
  - vm_compute. reflexivity.
  - split; [exact Hend|]. split; [exact Hprinted|]. split.
    + apply (Hbefore "OVERVIEW.md" "# Overview"); [left; reflexivity|].
      vm_compute. reflexivity.
    + rewrite (Hafter "FAQ.md") by (cbn; tauto). vm_compute. reflexivity.
Defined.
